(** * account-setup: the keychain credential store, the session manager
      and the login lockout counter

    A shallow embedding of the keychain service (credential repository,
    session manager, user-data mirror; imported by the screens as
    [services/keychainService], its text is lines 249-529 of
    [src/screens/HomeScreen/index.tsx]), of the lockout logic of
    [src/screens/LoginScreen/index.tsx] (lines 66-177) and of the logout
    handler of [src/screens/HomeScreen/index.tsx] (lines 22-38).

    The JavaScript values that flow through the service are the results of
    [JSON.parse], cast without validation ([as Credential[]], [as Session]);
    they are therefore modelled as untyped JSON values.  Promises are awaited
    one at a time by every caller, so an [async] function is a state
    transformer on the world (keychain contents plus the platform's
    behaviour) that returns either a value or a thrown exception. *)

From Stdlib Require Import ZArith NArith Ascii String List Lia Bool.
From Stdlib Require Import DecimalString DecimalZ DecimalPos DecimalN.
From stdpp Require Import base option list strings gmap.

Open Scope string_scope.
Open Scope list_scope.
Open Scope Z_scope.

(** ** JavaScript values *)

(** The image of [JSON.parse].  Numbers are restricted to integers (the only
    number the service stores is [Date.now()]); an object keeps its members
    in source order. *)
#[warnings="-register-all"]
Inductive JSON : Type :=
  | JNull
  | JBool (b : bool)
  | JNum (z : Z)
  | JStr (s : string)
  | JArr (l : list JSON)
  | JObj (m : list (string * JSON)).

(** Outcome of evaluating an expression: a value, or a thrown exception
    carrying its message. *)
Inductive result (A : Type) : Type :=
  | Ok (a : A)
  | Throw (e : string).
Arguments Ok {A} a.
Arguments Throw {A} e.

(** ** [String.prototype.toLowerCase]

    Strings are byte strings; the ASCII letters [A-Z] are mapped to [a-z]
    and every other byte is left as it is. *)
Definition lower_ascii (c : ascii) : ascii :=
  let n := N_of_ascii c in
  if ((65 <=? n) && (n <=? 90))%N then ascii_of_N (n + 32) else c.

Fixpoint toLowerCase (s : string) : string :=
  match s with
  | EmptyString => EmptyString
  | String c r => String (lower_ascii c) (toLowerCase r)
  end.

(** Two strings differ only in letter case: same length, and at every
    position the same byte or the two cases of one ASCII letter. *)
Definition case_variant_ascii (c d : ascii) : Prop :=
  c = d \/
  let n := N_of_ascii c in let m := N_of_ascii d in
  (((65 <= n <= 90) /\ m = n + 32) \/ ((65 <= m <= 90) /\ n = m + 32))%N.

Inductive case_variant : string -> string -> Prop :=
  | cv_nil : case_variant EmptyString EmptyString
  | cv_cons c d s t :
      case_variant_ascii c d -> case_variant s t ->
      case_variant (String c s) (String d t).

(** ** A concrete JSON codec

    [JSON.stringify] and [JSON.parse] belong to the JavaScript runtime.  The
    service is parametric in them (see [Platform] below); this module gives
    an executable instance for the integer fragment, used to run the service
    on concrete slot contents. *)
Module Json.

Definition chars (s : string) : list ascii := list_ascii_of_string s.

Definition hex_digit (n : N) : ascii :=
  if (n <? 10)%N then ascii_of_N (48 + n) else ascii_of_N (87 + n).

Definition hex_value (c : ascii) : option N :=
  let n := N_of_ascii c in
  if ((48 <=? n) && (n <=? 57))%N then Some (n - 48)%N
  else if ((97 <=? n) && (n <=? 102))%N then Some (n - 87)%N
  else if ((65 <=? n) && (n <=? 70))%N then Some (n - 55)%N
  else None.

(** How [JSON.stringify] writes one character of a string. *)
Definition escape_char (c : ascii) : list ascii :=
  let n := N_of_ascii c in
  if Ascii.eqb c "034" then ["\"%char; "034"%char]
  else if Ascii.eqb c "\" then chars "\\"
  else if (n =? 8)%N then chars "\b"
  else if (n =? 9)%N then chars "\t"
  else if (n =? 10)%N then chars "\n"
  else if (n =? 12)%N then chars "\f"
  else if (n =? 13)%N then chars "\r"
  else if (n <? 32)%N then
    chars "\u00" ++ [hex_digit (n / 16); hex_digit (n mod 16)]
  else [c].

Fixpoint escape (s : list ascii) : list ascii :=
  match s with
  | [] => []
  | c :: r => escape_char c ++ escape r
  end.

Definition quote (s : string) : list ascii :=
  "034"%char :: escape (chars s) ++ ["034"%char].

Definition print_num (z : Z) : list ascii :=
  chars (NilZero.string_of_int (Z.to_int z)).

Fixpoint print (v : JSON) : list ascii :=
  match v with
  | JNull => chars "null"
  | JBool true => chars "true"
  | JBool false => chars "false"
  | JNum z => print_num z
  | JStr s => quote s
  | JArr l =>
      "["%char ::
      (fix elems (l : list JSON) : list ascii :=
         match l with
         | [] => chars "]"
         | v :: l' =>
             print v ++
             match l' with [] => chars "]" | _ => ","%char :: elems l' end
         end) l
  | JObj m =>
      "{"%char ::
      (fix members (m : list (string * JSON)) : list ascii :=
         match m with
         | [] => chars "}"
         | (k, v) :: m' =>
             quote k ++ ":"%char :: print v ++
             match m' with [] => chars "}" | _ => ","%char :: members m' end
         end) m
  end.

Definition stringify (v : JSON) : string := string_of_list_ascii (print v).

(** The local functions of [print], by name. *)
Fixpoint print_elems (l : list JSON) : list ascii :=
  match l with
  | [] => chars "]"
  | v :: l' =>
      print v ++
      match l' with [] => chars "]" | _ => ","%char :: print_elems l' end
  end.

Fixpoint print_members (m : list (string * JSON)) : list ascii :=
  match m with
  | [] => chars "}"
  | (k, v) :: m' =>
      quote k ++ ":"%char :: print v ++
      match m' with [] => chars "}" | _ => ","%char :: print_members m' end
  end.

(** *** Parsing *)

Definition is_ws (c : ascii) : bool :=
  let n := N_of_ascii c in
  ((n =? 32) || (n =? 9) || (n =? 10) || (n =? 13))%N.

Fixpoint skip_ws (s : list ascii) : list ascii :=
  match s with
  | c :: r => if is_ws c then skip_ws r else s
  | [] => []
  end.

Fixpoint strip_prefix (p s : list ascii) : option (list ascii) :=
  match p, s with
  | [], _ => Some s
  | a :: p', b :: s' => if Ascii.eqb a b then strip_prefix p' s' else None
  | _ :: _, [] => None
  end.

Definition simple_escape (e : ascii) : option ascii :=
  if Ascii.eqb e "034" then Some "034"%char
  else if Ascii.eqb e "\" then Some "\"%char
  else if Ascii.eqb e "/" then Some "/"%char
  else if Ascii.eqb e "b" then Some (ascii_of_N 8)
  else if Ascii.eqb e "t" then Some (ascii_of_N 9)
  else if Ascii.eqb e "n" then Some (ascii_of_N 10)
  else if Ascii.eqb e "f" then Some (ascii_of_N 12)
  else if Ascii.eqb e "r" then Some (ascii_of_N 13)
  else None.

(** [\uXXXX] below 256; larger code points are outside the byte-string
    fragment. *)
Definition unicode_escape (h1 h2 h3 h4 : ascii) : option ascii :=
  match hex_value h1, hex_value h2, hex_value h3, hex_value h4 with
  | Some 0%N, Some 0%N, Some a, Some b => Some (ascii_of_N (16 * a + b))
  | _, _, _, _ => None
  end.

(** The body of a string literal, after its opening quote. *)
Fixpoint parse_chars (s : list ascii) : option (list ascii * list ascii) :=
  match s with
  | [] => None
  | c :: r =>
      if Ascii.eqb c "034" then Some ([], r)
      else if Ascii.eqb c "\" then
        match r with
        | [] => None
        | e :: r' =>
            if Ascii.eqb e "u" then
              match r' with
              | h1 :: h2 :: h3 :: h4 :: r'' =>
                  match unicode_escape h1 h2 h3 h4, parse_chars r'' with
                  | Some x, Some (str, rest) => Some (x :: str, rest)
                  | _, _ => None
                  end
              | _ => None
              end
            else
              match simple_escape e, parse_chars r' with
              | Some x, Some (str, rest) => Some (x :: str, rest)
              | _, _ => None
              end
        end
      else if (N_of_ascii c <? 32)%N then None
      else
        match parse_chars r with
        | Some (str, rest) => Some (c :: str, rest)
        | None => None
        end
  end.

Definition is_num_char (c : ascii) : bool :=
  let n := N_of_ascii c in
  ((n =? 45) || ((48 <=? n) && (n <=? 57)))%N.

Fixpoint span_num (s : list ascii) : list ascii * list ascii :=
  match s with
  | c :: r =>
      if is_num_char c then let '(t, rest) := span_num r in (c :: t, rest)
      else ([], s)
  | [] => ([], [])
  end.

(** An integer literal in canonical form (no leading zeros, no [-0]). *)
Definition parse_num (s : list ascii) : option (JSON * list ascii) :=
  let '(tok, rest) := span_num s in
  match NilZero.int_of_string (string_of_list_ascii tok) with
  | Some d =>
      let z := Z.of_int d in
      if bool_decide (print_num z = tok)
      then Some (JNum z, rest) else None
  | None => None
  end.

(** One value, given the parsers of the elements of an array and of the
    members of an object. *)
Definition value_step
    (elements : list ascii -> option (list JSON * list ascii))
    (members : list ascii -> option (list (string * JSON) * list ascii))
    (s : list ascii) : option (JSON * list ascii) :=
  match skip_ws s with
  | [] => None
  | c :: r =>
      if is_num_char c then parse_num (c :: r)
      else if Ascii.eqb c "n" then
        option_map (pair JNull) (strip_prefix (chars "ull") r)
      else if Ascii.eqb c "t" then
        option_map (pair (JBool true)) (strip_prefix (chars "rue") r)
      else if Ascii.eqb c "f" then
        option_map (pair (JBool false)) (strip_prefix (chars "alse") r)
      else if Ascii.eqb c "034" then
        match parse_chars r with
        | Some (str, rest) => Some (JStr (string_of_list_ascii str), rest)
        | None => None
        end
      else if Ascii.eqb c "[" then
        match skip_ws r with
        | d :: r' =>
            if Ascii.eqb d "]" then Some (JArr [], r')
            else option_map (fun '(l, rest) => (JArr l, rest)) (elements r)
        | [] => None
        end
      else if Ascii.eqb c "{" then
        match skip_ws r with
        | d :: r' =>
            if Ascii.eqb d "}" then Some (JObj [], r')
            else option_map (fun '(m, rest) => (JObj m, rest)) (members r)
        | [] => None
        end
      else None
  end.

(** One element, then [","] and more elements, or ["]"]. *)
Definition elements_step
    (value : list ascii -> option (JSON * list ascii))
    (elements : list ascii -> option (list JSON * list ascii))
    (s : list ascii) : option (list JSON * list ascii) :=
  match value s with
  | Some (v, r) =>
      match skip_ws r with
      | d :: r' =>
          if Ascii.eqb d "]" then Some ([v], r')
          else if Ascii.eqb d "," then
            option_map (fun '(l, rest) => (v :: l, rest)) (elements r')
          else None
      | [] => None
      end
  | None => None
  end.

(** One ["key": value] member, then [","] and more members, or ["}"]. *)
Definition members_step
    (value : list ascii -> option (JSON * list ascii))
    (members : list ascii -> option (list (string * JSON) * list ascii))
    (s : list ascii) : option (list (string * JSON) * list ascii) :=
  match skip_ws s with
  | q :: r0 =>
      if Ascii.eqb q "034" then
        match parse_chars r0 with
        | Some (k, r1) =>
            match skip_ws r1 with
            | c :: r2 =>
                if Ascii.eqb c ":" then
                  match value r2 with
                  | Some (v, r) =>
                      match skip_ws r with
                      | d :: r' =>
                          let kv := (string_of_list_ascii k, v) in
                          if Ascii.eqb d "}" then Some ([kv], r')
                          else if Ascii.eqb d "," then
                            option_map (fun '(m, rest) => (kv :: m, rest))
                              (members r')
                          else None
                      | [] => None
                      end
                  | None => None
                  end
                else None
            | [] => None
            end
        | None => None
        end
      else None
  | [] => None
  end.

Fixpoint parse_value (fuel : nat) (s : list ascii)
  : option (JSON * list ascii) :=
  match fuel with
  | O => None
  | S fuel => value_step (parse_elements fuel) (parse_members fuel) s
  end
with parse_elements (fuel : nat) (s : list ascii)
  : option (list JSON * list ascii) :=
  match fuel with
  | O => None
  | S fuel => elements_step (parse_value fuel) (parse_elements fuel) s
  end
with parse_members (fuel : nat) (s : list ascii)
  : option (list (string * JSON) * list ascii) :=
  match fuel with
  | O => None
  | S fuel => members_step (parse_value fuel) (parse_members fuel) s
  end.

(** [JSON.parse]: one value, optionally surrounded by white space;
    anything else is a [SyntaxError]. *)
Definition parse (s : string) : result JSON :=
  match parse_value (S (String.length s)) (chars s) with
  | Some (v, rest) =>
      match skip_ws rest with
      | [] => Ok v
      | _ :: _ => Throw "SyntaxError"
      end
  | None => Throw "SyntaxError"
  end.

(** What may follow a number: anything but a sign or a digit. *)
Definition tail_ok (rest : list ascii) : Prop :=
  match rest with
  | [] => True
  | c :: _ => is_num_char c = false
  end.

(** A non-blank first character that closes neither an array nor an
    object. *)
Definition starts_value (s : list ascii) : Prop :=
  exists c r, s = c :: r /\ is_ws c = false /\
              Ascii.eqb c "]" = false /\ Ascii.eqb c "}" = false.

End Json.

(** ** Exceptions and state

    [M S A]: a computation over a state [S] that returns an [A] or throws.
    [await] is sequencing: every caller awaits a promise before it goes
    on. *)
Definition M (S A : Type) : Type := S -> result A * S.

Definition ret {S A} (a : A) : M S A := fun s => (Ok a, s).

Definition bind {S A B} (m : M S A) (k : A -> M S B) : M S B :=
  fun s =>
    match m s with
    | (Ok a, s') => k a s'
    | (Throw e, s') => (Throw e, s')
    end.

(** [try { body } catch (error) { handler }] *)
Definition try_catch {S A} (body : M S A) (handler : string -> M S A) : M S A :=
  fun s =>
    match body s with
    | (Ok a, s') => (Ok a, s')
    | (Throw e, s') => handler e s'
    end.

(** A synchronous expression that may throw. *)
Definition lift {S A} (r : result A) : M S A := fun s => (r, s).

Definition gets {S A} (f : S -> A) : M S A := fun s => (Ok (f s), s).

Definition modify {S} (f : S -> S) : M S unit := fun s => (Ok tt, f s).

(** Run a computation on the second component of a pair of states. *)
Definition on_snd {U S A} (m : M S A) : M (U * S) A :=
  fun us => let '(r, s') := m (snd us) in (r, (fst us, s')).

Declare Scope js_scope.
Delimit Scope js_scope with js.
Notation "'let*' x ':=' m 'in' k" := (bind m (fun x => k))
  (at level 10, x pattern, m at level 100, k at level 200) : js_scope.
Notation "m ';;' k" := (bind m (fun _ => k))
  (at level 100, k at level 200, right associativity) : js_scope.
Open Scope js_scope.

Definition rbind {A B} (r : result A) (k : A -> result B) : result B :=
  match r with
  | Ok a => k a
  | Throw e => Throw e
  end.

(** ** The platform

    [react-native-keychain] is a store of one (username, password) pair per
    service name.  Each call of its API may reject; whether the next calls do
    is read from [faults] ([true]: the promise rejects).  [calls] records
    every call made, as a mock's call list does.  [clock] and [ticks] drive
    [Date.now()]; [salts] is the randomness [CryptoJS.AES.encrypt] draws. *)
Inductive KeychainCall : Type :=
  | SetGenericPassword (username password service : string)
  | GetGenericPassword (service : string)
  | ResetGenericPassword (service : string).

Record World : Type := mkWorld {
  keychain : gmap string (string * string);
  faults : list bool;
  calls : list KeychainCall;
  salts : list N;
  clock : Z;
  ticks : list N;
}.

Definition with_keychain (k : gmap string (string * string)) (w : World) : World :=
  mkWorld k (faults w) (calls w) (salts w) (clock w) (ticks w).

Definition with_faults (fs : list bool) (w : World) : World :=
  mkWorld (keychain w) fs (calls w) (salts w) (clock w) (ticks w).

Definition with_calls (cs : list KeychainCall) (w : World) : World :=
  mkWorld (keychain w) (faults w) cs (salts w) (clock w) (ticks w).

Definition with_salts (ss : list N) (w : World) : World :=
  mkWorld (keychain w) (faults w) (calls w) ss (clock w) (ticks w).

Definition with_time (t : Z) (ts : list N) (w : World) : World :=
  mkWorld (keychain w) (faults w) (calls w) (salts w) t ts.

(** Whether the [n]-th keychain call from now rejects. *)
Definition rejects_at (n : nat) (w : World) : bool := nth n (faults w) false.

(** The world once a call has been issued. *)
Definition logged (c : KeychainCall) (w : World) : World :=
  with_calls (calls w ++ [c]) (with_faults (tail (faults w)) w).

(** Every keychain call is logged, then rejects or resolves. *)
Definition keychain_call {A} (c : KeychainCall) (run : M World A) : M World A :=
  fun w =>
    if rejects_at 0 w then (Throw "Keychain error", logged c w)
    else run (logged c w).

Definition Keychain_setGenericPassword (username password service : string)
  : M World unit :=
  keychain_call (SetGenericPassword username password service)
    (modify (fun w =>
       with_keychain (<[service := (username, password)]> (keychain w)) w)).

(** Resolves to [false] ([None]) when the service holds nothing. *)
Definition Keychain_getGenericPassword (service : string)
  : M World (option (string * string)) :=
  keychain_call (GetGenericPassword service)
    (gets (fun w => keychain w !! service)).

Definition Keychain_resetGenericPassword (service : string) : M World bool :=
  keychain_call (ResetGenericPassword service)
    (modify (fun w => with_keychain (delete service (keychain w)) w) ;;
     ret true).

(** [Date.now()]: the wall clock, which does not go back. *)
Definition Date_now : M World Z :=
  fun w =>
    let t := clock w + Z.of_N (hd 0%N (ticks w)) in
    (Ok t, with_time t (tail (ticks w)) w).

(** The cipher and the JSON codec of the runtime.  [AES_encrypt salt data key]
    and [AES_decrypt data key], the latter followed by
    [toString(CryptoJS.enc.Utf8)], which throws on malformed output. *)
Class Platform : Type := {
  AES_encrypt : N -> string -> string -> string;
  AES_decrypt : string -> string -> result string;
  JSON_stringify : JSON -> string;
  JSON_parse : string -> result JSON;
}.

(** What the service relies on: both codecs read back what they wrote. *)
Class PlatformLaws (P : Platform) : Prop := {
  AES_round_trip salt data key :
    AES_decrypt (AES_encrypt salt data key) key = Ok data;
  JSON_round_trip v : JSON_parse (JSON_stringify v) = Ok v;
}.

(** *** The mock platform of the test suite

    [encrypt: data => `encrypted_${data}`] and
    [decrypt: encryptedData => encryptedData.replace('encrypted_', '')]. *)
Module Jest.

(** [s.replace(p, '')]: drop the first occurrence of [p], if any. *)
Fixpoint remove_first (p s : list ascii) : list ascii :=
  match Json.strip_prefix p s with
  | Some rest => rest
  | None =>
      match s with
      | [] => []
      | c :: r => c :: remove_first p r
      end
  end.

Definition encrypt (data : string) : string := "encrypted_" +:+ data.

Definition decrypt (encryptedData : string) : string :=
  string_of_list_ascii
    (remove_first (Json.chars "encrypted_") (Json.chars encryptedData)).

#[export] Instance platform : Platform := {|
  AES_encrypt _ data _ := encrypt data;
  AES_decrypt data _ := Ok (decrypt data);
  JSON_stringify := Json.stringify;
  JSON_parse := Json.parse;
|}.

End Jest.

(** ** The keychain service

    Each function below is the source function of the same name, statement
    by statement; a [const] is a [let]. *)

Definition KEYCHAIN_SERVICE : string := "AccountSetup".
Definition USER_DATA_KEY : string := "userData".
Definition CREDENTIALS_KEY : string := "credentials".
Definition SESSION_KEY : string := "session".
Definition ENCRYPTION_KEY : string := "AccountSetupSecretKey2024!".

(** [`${KEYCHAIN_SERVICE}_${CREDENTIALS_KEY}`] and
    [`${KEYCHAIN_SERVICE}_${SESSION_KEY}`] *)
Definition CREDENTIALS_SERVICE : string :=
  KEYCHAIN_SERVICE +:+ "_" +:+ CREDENTIALS_KEY.
Definition SESSION_SERVICE : string :=
  KEYCHAIN_SERVICE +:+ "_" +:+ SESSION_KEY.

Record Credential : Type := mkCredential {
  email : string;
  password : string;
  firstName : string;
  lastName : string;
  phoneNumber : string;
}.

Record Session : Type := mkSession {
  session_email : string;
  timestamp : Z;
}.

Record UserData : Type := mkUserData {
  user_email : string;
  user_firstName : string;
  user_lastName : string;
  user_phoneNumber : string;
}.

(** The object literals of the source, members in the order written. *)
Definition Credential_to_JSON (c : Credential) : JSON :=
  JObj [("email", JStr (email c)); ("password", JStr (password c));
        ("firstName", JStr (firstName c)); ("lastName", JStr (lastName c));
        ("phoneNumber", JStr (phoneNumber c))].

Definition Session_to_JSON (s : Session) : JSON :=
  JObj [("email", JStr (session_email s)); ("timestamp", JNum (timestamp s))].

Definition UserData_to_JSON (u : UserData) : JSON :=
  JObj [("email", JStr (user_email u));
        ("firstName", JStr (user_firstName u));
        ("lastName", JStr (user_lastName u));
        ("phoneNumber", JStr (user_phoneNumber u))].

(** *** The JavaScript operations the service applies to parsed values *)

(** The member [k] of an object; a later duplicate key wins. *)
Fixpoint member (k : string) (m : list (string * JSON)) : option JSON :=
  match m with
  | [] => None
  | (k', v) :: m' =>
      match member k m' with
      | Some v' => Some v'
      | None => if String.eqb k' k then Some v else None
      end
  end.

(** [v.k] for the property names the service reads ([email], [password]),
    which no primitive or array has: [undefined] ([None]) on anything but an
    object that has the member, a [TypeError] on [null]. *)
Definition get_prop (k : string) (v : JSON) : result (option JSON) :=
  match v with
  | JNull => Throw "TypeError"
  | JObj m => Ok (member k m)
  | _ => Ok None
  end.

(** [x.toLowerCase()]: only a string has the method. *)
Definition call_toLowerCase (x : option JSON) : result string :=
  match x with
  | Some (JStr s) => Ok (toLowerCase s)
  | _ => Throw "TypeError"
  end.

(** [x === s] for a string [s]. *)
Definition strict_eq_string (x : option JSON) (s : string) : bool :=
  match x with
  | Some (JStr t) => String.eqb t s
  | _ => false
  end.

(** [!!v] *)
Definition truthy (v : JSON) : bool :=
  match v with
  | JNull => false
  | JBool b => b
  | JNum z => negb (z =? 0)
  | JStr s => negb (String.eqb s "")
  | JArr _ | JObj _ => true
  end.

(** The receiver of [.findIndex] / [.find]: only an array has them. *)
Definition as_array (v : JSON) : result (list JSON) :=
  match v with
  | JArr l => Ok l
  | _ => Throw "TypeError"
  end.

(** [Array.prototype.findIndex], scanning from index [k]; [-1] when no
    element satisfies the callback, which may throw. *)
Fixpoint findIndex_from (k : Z) (p : JSON -> result bool) (l : list JSON)
  : result Z :=
  match l with
  | [] => Ok (-1)
  | x :: r =>
      rbind (p x) (fun b => if b then Ok k else findIndex_from (k + 1) p r)
  end.

Definition findIndex (p : JSON -> result bool) (l : list JSON) : result Z :=
  findIndex_from 0 p l.

(** [Array.prototype.find]; [None] is [undefined]. *)
Fixpoint find (p : JSON -> result bool) (l : list JSON)
  : result (option JSON) :=
  match l with
  | [] => Ok None
  | x :: r => rbind (p x) (fun b => if b then Ok (Some x) else find p r)
  end.

(** [cred.email.toLowerCase()] *)
Definition cred_email_lower (cred : JSON) : result string :=
  rbind (get_prop "email" cred) call_toLowerCase.

Section KeychainService.
Context `{Platform}.

(** Lines 278-280. *)
Definition encryptData (data : string) : M World string :=
  fun w =>
    (Ok (AES_encrypt (hd 0%N (salts w)) data ENCRYPTION_KEY),
     with_salts (tail (salts w)) w).

(** Lines 285-288. *)
Definition decryptData (encryptedData : string) : result string :=
  AES_decrypt encryptedData ENCRYPTION_KEY.

(** Lines 294-309. *)
Definition storeUserDataInKeychain (userData : UserData) : M World bool :=
  try_catch
    (let jsonData := JSON_stringify (UserData_to_JSON userData) in
     let* encryptedData := encryptData jsonData in
     Keychain_setGenericPassword USER_DATA_KEY encryptedData
       KEYCHAIN_SERVICE ;;
     ret true)
    (fun error => ret false).

(** Lines 315-331. *)
Definition getUserDataFromKeychain : M World JSON :=
  try_catch
    (let* credentials := Keychain_getGenericPassword KEYCHAIN_SERVICE in
     match credentials with
     | Some (_, credentials_password) =>
         let* decryptedData := lift (decryptData credentials_password) in
         let* userData := lift (JSON_parse decryptedData) in
         ret userData
     | None => ret JNull
     end)
    (fun error => ret JNull).

(** Lines 336-346. *)
Definition clearUserDataFromKeychain : M World bool :=
  try_catch
    (let* result := Keychain_resetGenericPassword KEYCHAIN_SERVICE in
     ret result)
    (fun error => ret false).

(** Lines 404-420. *)
Definition getCredentialsFromKeychain : M World JSON :=
  try_catch
    (let* credentials := Keychain_getGenericPassword CREDENTIALS_SERVICE in
     match credentials with
     | Some (_, credentials_password) =>
         let* decryptedData := lift (decryptData credentials_password) in
         let* credentialsList := lift (JSON_parse decryptedData) in
         ret credentialsList
     | None => ret (JArr [])
     end)
    (fun error => ret (JArr [])).

(** Lines 352-398.  The index written is the one [findIndex] found, so it is
    within the array. *)
Definition storeCredentialsInKeychain
    (email password firstName lastName phoneNumber : string) : M World bool :=
  try_catch
    (let* existingCredentials := getCredentialsFromKeychain in
     let* existing := lift (as_array existingCredentials) in
     let* credentialIndex :=
       lift (findIndex
               (fun cred =>
                  rbind (cred_email_lower cred) (fun e =>
                  Ok (String.eqb e (toLowerCase email))))
               existing) in
     let newCredential :=
       Credential_to_JSON
         (mkCredential (toLowerCase email) password firstName lastName
            phoneNumber) in
     let updatedCredentials :=
       if 0 <=? credentialIndex
       then <[Z.to_nat credentialIndex := newCredential]> existing
       else existing ++ [newCredential] in
     let jsonData := JSON_stringify (JArr updatedCredentials) in
     let* encryptedData := encryptData jsonData in
     Keychain_setGenericPassword CREDENTIALS_KEY encryptedData
       CREDENTIALS_SERVICE ;;
     ret true)
    (fun error => ret false).

(** Lines 426-445. *)
Definition validateCredentials (email password : string) : M World bool :=
  try_catch
    (let* credentials := getCredentialsFromKeychain in
     let normalizedEmail := toLowerCase email in
     let* list := lift (as_array credentials) in
     let* matchingCredential :=
       lift (find
               (fun cred =>
                  rbind (cred_email_lower cred) (fun e =>
                  if String.eqb e normalizedEmail
                  then rbind (get_prop "password" cred) (fun p =>
                       Ok (strict_eq_string p password))
                  else Ok false))
               list) in
     ret (match matchingCredential with
          | Some v => truthy v
          | None => false
          end))
    (fun error => ret false).

(** Lines 451-467; the result is [matchingCredential || null]. *)
Definition getCredentialByEmail (email : string) : M World JSON :=
  try_catch
    (let* credentials := getCredentialsFromKeychain in
     let normalizedEmail := toLowerCase email in
     let* list := lift (as_array credentials) in
     let* matchingCredential :=
       lift (find
               (fun cred =>
                  rbind (cred_email_lower cred) (fun e =>
                  Ok (String.eqb e normalizedEmail)))
               list) in
     ret (match matchingCredential with
          | Some v => if truthy v then v else JNull
          | None => JNull
          end))
    (fun error => ret JNull).

(** Lines 473-491. *)
Definition createSession (email : string) : M World bool :=
  try_catch
    (let* now := Date_now in
     let session := Session_to_JSON (mkSession (toLowerCase email) now) in
     let jsonData := JSON_stringify session in
     let* encryptedData := encryptData jsonData in
     Keychain_setGenericPassword SESSION_KEY encryptedData SESSION_SERVICE ;;
     ret true)
    (fun error => ret false).

(** Lines 497-513. *)
Definition getSession : M World JSON :=
  try_catch
    (let* credentials := Keychain_getGenericPassword SESSION_SERVICE in
     match credentials with
     | Some (_, credentials_password) =>
         let* decryptedData := lift (decryptData credentials_password) in
         let* session := lift (JSON_parse decryptedData) in
         ret session
     | None => ret JNull
     end)
    (fun error => ret JNull).

(** Lines 519-529. *)
Definition clearSession : M World bool :=
  try_catch
    (let* result := Keychain_resetGenericPassword SESSION_SERVICE in
     ret result)
    (fun error => ret false).

End KeychainService.

(** ** The screens

    What the screens hold besides the keychain: the redux slice
    ([state.authentication.userData]), the current route, and the state of
    the login form (formik's values and the three [useState] cells).  An
    object literal built from property reads may hold [undefined] members
    ([None]).  Formik's submitting flag and [console.error] are not
    modelled. *)
Record UI : Type := mkUI {
  userData : option (list (string * option JSON));
  route : string;
  values_email : string;
  values_password : string;
  loginError : string;
  failedAttempts : Z;
  isLockedOut : bool;
}.

Definition setUserData (u : list (string * option JSON)) (ui : UI) : UI :=
  mkUI (Some u) (route ui) (values_email ui) (values_password ui)
    (loginError ui) (failedAttempts ui) (isLockedOut ui).

Definition clearUserData (ui : UI) : UI :=
  mkUI None (route ui) (values_email ui) (values_password ui)
    (loginError ui) (failedAttempts ui) (isLockedOut ui).

Definition navigate (screen : string) (ui : UI) : UI :=
  mkUI (userData ui) screen (values_email ui) (values_password ui)
    (loginError ui) (failedAttempts ui) (isLockedOut ui).

Definition setValues_email (text : string) (ui : UI) : UI :=
  mkUI (userData ui) (route ui) text (values_password ui)
    (loginError ui) (failedAttempts ui) (isLockedOut ui).

Definition setLoginError (e : string) (ui : UI) : UI :=
  mkUI (userData ui) (route ui) (values_email ui) (values_password ui)
    e (failedAttempts ui) (isLockedOut ui).

Definition setFailedAttempts (n : Z) (ui : UI) : UI :=
  mkUI (userData ui) (route ui) (values_email ui) (values_password ui)
    (loginError ui) n (isLockedOut ui).

Definition setIsLockedOut (b : bool) (ui : UI) : UI :=
  mkUI (userData ui) (route ui) (values_email ui) (values_password ui)
    (loginError ui) (failedAttempts ui) b.

(** A synchronous update of the screen state inside an [async] body. *)
Definition ui_do (f : UI -> UI) : M (UI * World) unit :=
  modify (fun s => (f (fst s), snd s)).

Definition number_to_string (z : Z) : string :=
  NilZero.string_of_int (Z.to_int z).

Definition MAX_FAILED_ATTEMPTS : Z := 5.

Definition LOCKED_OUT_MESSAGE : string :=
  "You have been locked out due to multiple failed login attempts.".

Section Screens.
Context `{Platform}.

(** [src/screens/LoginScreen/index.tsx], lines 88-169: formik's [onSubmit]. *)
Definition onSubmit : M (UI * World) unit :=
  try_catch
    (ui_do (setLoginError "") ;;
     let* locked := gets (fun s => isLockedOut (fst s)) in
     if locked then ui_do (setLoginError LOCKED_OUT_MESSAGE)
     else
       let* values := gets fst in
       let* isValid :=
         on_snd (validateCredentials (values_email values)
                   (values_password values)) in
       if negb isValid then
         let* attempts := gets (fun s => failedAttempts (fst s)) in
         let newAttempts := attempts + 1 in
         ui_do (setFailedAttempts newAttempts) ;;
         if MAX_FAILED_ATTEMPTS <=? newAttempts then
           ui_do (setIsLockedOut true) ;;
           ui_do (setLoginError LOCKED_OUT_MESSAGE)
         else
           ui_do (setLoginError
                    ("Invalid email or password. " +:+
                     number_to_string (MAX_FAILED_ATTEMPTS - newAttempts) +:+
                     " attempt(s) remaining."))
       else
         ui_do (setFailedAttempts 0) ;;
         ui_do (setIsLockedOut false) ;;
         let* credential :=
           on_snd (getCredentialByEmail (values_email values)) in
         if negb (truthy credential) then
           ui_do (setLoginError "User data not found")
         else
           let* sessionSuccess :=
             on_snd (createSession (values_email values)) in
           if negb sessionSuccess then
             ui_do (setLoginError "Failed to create session")
           else
             let* c_email := lift (get_prop "email" credential) in
             let* c_firstName := lift (get_prop "firstName" credential) in
             let* c_lastName := lift (get_prop "lastName" credential) in
             let* c_phoneNumber := lift (get_prop "phoneNumber" credential) in
             let userData :=
               [("email", c_email); ("firstName", c_firstName);
                ("lastName", c_lastName); ("phoneNumber", c_phoneNumber)] in
             ui_do (setUserData userData) ;;
             ui_do (navigate "Home"))
    (fun error =>
       ui_do (setLoginError
                "An error occurred during login. Please try again.")).

(** Lines 173-177: the [useEffect] with dependency [formik.values.email]. *)
Definition email_effect (ui : UI) : UI :=
  setLoginError "" (setIsLockedOut false (setFailedAttempts 0 ui)).

(** [formik.handleChange('email')]: the effect runs when the rendered
    value differs from the previous one. *)
Definition handleChange_email (text : string) (ui : UI) : UI :=
  let ui' := setValues_email text ui in
  if String.eqb (values_email ui) text then ui' else email_effect ui'.

(** [src/screens/HomeScreen/index.tsx], lines 22-38. *)
Definition handleLogout : M (UI * World) unit :=
  try_catch
    (ui_do clearUserData ;;
     on_snd clearSession ;;
     on_snd clearUserDataFromKeychain ;;
     ui_do (navigate "Login"))
    (fun error => ret tt).

End Screens.

(** The lockout counter as the state machine it implements. *)
Inductive Lockout : Type :=
  | Active (n : Z)
  | LockedOut.

Definition lockout (ui : UI) : Lockout :=
  if isLockedOut ui then LockedOut else Active (failedAttempts ui).

(** The login screen as first rendered: [initialValues] and the initial
    [useState] values. *)
Definition login_mount (ui : UI) : UI :=
  mkUI (userData ui) (route ui) "" "" "" 0 false.

(** ** The splash screen

    [checkAuthenticationStatus] passes [session.email] to
    [getCredentialByEmail]; the session is whatever [JSON.parse] returned, so
    the argument need not be a string. *)

Section Splash.
Context `{Platform}.

(** [getCredentialByEmail] (lines 451-467) called with any value:
    [email.toLowerCase()] is evaluated after the credentials were read, inside
    the [try]. *)
Definition getCredentialByEmail_any (email : option JSON) : M World JSON :=
  try_catch
    (let* credentials := getCredentialsFromKeychain in
     let* normalizedEmail := lift (call_toLowerCase email) in
     let* list := lift (as_array credentials) in
     let* matchingCredential :=
       lift (find
               (fun cred =>
                  rbind (cred_email_lower cred) (fun e =>
                  Ok (String.eqb e normalizedEmail)))
               list) in
     ret (match matchingCredential with
          | Some v => if truthy v then v else JNull
          | None => JNull
          end))
    (fun error => ret JNull).

(** [src/screens/HomeScreen/index.tsx], lines 176-210 (the splash screen). *)
Definition checkAuthenticationStatus : M (UI * World) unit :=
  try_catch
    (let* session := on_snd getSession in
     if truthy session then
       let* session_email := lift (get_prop "email" session) in
       let* credential := on_snd (getCredentialByEmail_any session_email) in
       if truthy credential then
         let* c_email := lift (get_prop "email" credential) in
         let* c_firstName := lift (get_prop "firstName" credential) in
         let* c_lastName := lift (get_prop "lastName" credential) in
         let* c_phoneNumber := lift (get_prop "phoneNumber" credential) in
         let userData :=
           [("email", c_email); ("firstName", c_firstName);
            ("lastName", c_lastName); ("phoneNumber", c_phoneNumber)] in
         ui_do (setUserData userData) ;;
         ui_do (navigate "Home")
       else ui_do (navigate "Login")
     else ui_do (navigate "Login"))
    (fun error => ui_do (navigate "Login")).

End Splash.

(** ** The sign-up screen

    [AsyncStorage] is a plain store of strings by key; like the keychain,
    each call may reject ([storage_faults]) and is recorded
    ([storage_calls]). *)
Inductive StorageCall : Type :=
  | GetItem (key : string)
  | SetItem (key value : string)
  | RemoveItem (key : string).

Record Storage : Type := mkStorage {
  items : gmap string string;
  storage_faults : list bool;
  storage_calls : list StorageCall;
}.

Definition storage_rejects_at (n : nat) (st : Storage) : bool :=
  nth n (storage_faults st) false.

Definition storage_logged (c : StorageCall) (st : Storage) : Storage :=
  mkStorage (items st) (tail (storage_faults st)) (storage_calls st ++ [c]).

Definition with_items (m : gmap string string) (st : Storage) : Storage :=
  mkStorage m (storage_faults st) (storage_calls st).

Definition storage_call {A} (c : StorageCall) (run : M Storage A)
  : M Storage A :=
  fun st =>
    if storage_rejects_at 0 st
    then (Throw "AsyncStorage error", storage_logged c st)
    else run (storage_logged c st).

(** Resolves to [null] ([None]) when the key holds nothing. *)
Definition AsyncStorage_getItem (key : string) : M Storage (option string) :=
  storage_call (GetItem key) (gets (fun st => items st !! key)).

Definition AsyncStorage_setItem (key value : string) : M Storage unit :=
  storage_call (SetItem key value)
    (modify (fun st => with_items (<[key := value]> (items st)) st)).

Definition AsyncStorage_removeItem (key : string) : M Storage unit :=
  storage_call (RemoveItem key)
    (modify (fun st => with_items (delete key (items st)) st)).

(** Run a computation on the first component of a pair of states. *)
Definition on_fst {U S A} (m : M S A) : M (S * U) A :=
  fun su => let '(r, s') := m (fst su) in (r, (s', snd su)).

Record SignUpFormValues : Type := mkSignUpFormValues {
  form_email : string;
  form_password : string;
  form_confirmPassword : string;
  form_firstName : string;
  form_lastName : string;
  form_phoneNumber : string;
}.

Definition SIGNUP_FORM_STORAGE_KEY : string := "@AccountSetup:signupFormData".

(** The object literal [formData] of the save effect. *)
Definition SignUpFormValues_to_JSON (v : SignUpFormValues) : JSON :=
  JObj [("email", JStr (form_email v)); ("password", JStr (form_password v));
        ("confirmPassword", JStr (form_confirmPassword v));
        ("firstName", JStr (form_firstName v));
        ("lastName", JStr (form_lastName v));
        ("phoneNumber", JStr (form_phoneNumber v))].


(** A string is truthy when it is not empty. *)
Definition nonempty (s : string) : bool := negb (String.eqb s "").

Module SignUpScreen.
Section Screen.
Context `{Platform}.

(** [src/screens/SignUpScreen/index.tsx], lines 83-98.  The state is the cell
    [initialFormValues], which holds what [JSON.parse] returned, and the
    storage. *)
Definition loadSavedFormData : M (JSON * Storage) unit :=
  try_catch
    (let* savedData := on_snd (AsyncStorage_getItem SIGNUP_FORM_STORAGE_KEY) in
     match savedData with
     | Some text =>
         if nonempty text then
           let* parsedData := lift (JSON_parse text) in
           modify (fun s => (parsedData, snd s))
         else ret tt
     | None => ret tt
     end)
    (fun error => ret tt).

(** Lines 155-173. *)
Definition saveFormData (values : SignUpFormValues) : M Storage unit :=
  try_catch
    (let formData := SignUpFormValues_to_JSON values in
     AsyncStorage_setItem SIGNUP_FORM_STORAGE_KEY (JSON_stringify formData))
    (fun error => ret tt).

(** Lines 153-187: the effect that runs when [formik.values] changes. *)
Definition values_effect (values : SignUpFormValues) : M Storage unit :=
  let hasAnyValue :=
    nonempty (form_email values) || nonempty (form_password values) ||
    nonempty (form_confirmPassword values) ||
    nonempty (form_firstName values) || nonempty (form_lastName values) ||
    nonempty (form_phoneNumber values) in
  if hasAnyValue then saveFormData values else ret tt.

(** Lines 106-150: formik's [onSubmit]. *)
Definition onSubmit (values : SignUpFormValues)
  : M (Storage * (UI * World)) unit :=
  try_catch
    (let* credentialsSuccess :=
       on_snd (on_snd
         (storeCredentialsInKeychain (form_email values)
            (form_password values) (form_firstName values)
            (form_lastName values) (form_phoneNumber values))) in
     if negb credentialsSuccess then ret tt
     else
       let* sessionSuccess :=
         on_snd (on_snd (createSession (form_email values))) in
       if negb sessionSuccess then ret tt
       else
         on_fst (AsyncStorage_removeItem SIGNUP_FORM_STORAGE_KEY) ;;
         let userData :=
           [("email", Some (JStr (form_email values)));
            ("firstName", Some (JStr (form_firstName values)));
            ("lastName", Some (JStr (form_lastName values)));
            ("phoneNumber", Some (JStr (form_phoneNumber values)))] in
         on_snd (ui_do (setUserData userData)) ;;
         on_snd (ui_do (navigate "Home")))
    (fun error => ret tt).

End Screen.
End SignUpScreen.

(** ** Vocabulary of the properties *)

(** The entry as the upsert stores it. *)
Definition normalized (c : Credential) : Credential :=
  mkCredential (toLowerCase (email c)) (password c) (firstName c)
    (lastName c) (phoneNumber c).

(** The callback of [findIndex] in the upsert and of [find] in the lookup. *)
Definition same_email (email : string) (cred : JSON) : result bool :=
  rbind (cred_email_lower cred) (fun e =>
  Ok (String.eqb e (toLowerCase email))).

(** Replace the first element that satisfies [p], or append: the effect of
    [findIndex] followed by the indexed write or the spread-and-append. *)
Fixpoint replace_or_append (p : JSON -> result bool) (new : JSON)
    (l : list JSON) : result (list JSON) :=
  match l with
  | [] => Ok [new]
  | x :: r =>
      rbind (p x) (fun b =>
      if b then Ok (new :: r)
      else rbind (replace_or_append p new r) (fun r' => Ok (x :: r')))
  end.

(** The same on a list of well-formed entries. *)
Fixpoint upsert_list (c : Credential) (l : list Credential)
  : list Credential :=
  match l with
  | [] => [normalized c]
  | x :: r =>
      if String.eqb (toLowerCase (email x)) (toLowerCase (email c))
      then normalized c :: r
      else x :: upsert_list c r
  end.

Section Views.
Context `{Platform}.

(** What a slot decodes to: decrypt, then parse. *)
Definition decode (blob : string) : result JSON :=
  rbind (decryptData blob) JSON_parse.

(** What the three readers return: [dflt] when the keychain call rejects,
    the service holds nothing, or the blob does not decode. *)
Definition slot_view (service : string) (dflt : JSON) (w : World) : JSON :=
  if rejects_at 0 w then dflt
  else
    match keychain w !! service with
    | Some (_, blob) =>
        match decode blob with
        | Ok v => v
        | Throw _ => dflt
        end
    | None => dflt
    end.

(** The credentials slot holds the list [l]: it is absent and [l] is
    empty, or it decodes to the array of the entries of [l]. *)
Definition stored_credentials (w : World) (l : list Credential) : Prop :=
  match keychain w !! CREDENTIALS_SERVICE with
  | Some (_, blob) => decode blob = Ok (JArr (map Credential_to_JSON l))
  | None => l = []
  end.

(** One call of the upsert, its five arguments packed as a record, and a
    sequence of calls; the world after them. *)
Definition upsert (c : Credential) : M World bool :=
  storeCredentialsInKeychain (email c) (password c) (firstName c)
    (lastName c) (phoneNumber c).

Fixpoint upserts (cs : list Credential) (w : World) : World :=
  match cs with
  | [] => w
  | c :: cs' => upserts cs' (snd (upsert c w))
  end.

(** The callback of [find] in the validation. *)
Definition same_credentials (email password : string) (cred : JSON)
  : result bool :=
  rbind (cred_email_lower cred) (fun e =>
  if String.eqb e (toLowerCase email)
  then rbind (get_prop "password" cred) (fun p =>
       Ok (strict_eq_string p password))
  else Ok false).

(** What the upsert writes back, given the value it loaded. *)
Definition updatedCredentials (c : Credential) (existingCredentials : JSON)
  : result (list JSON) :=
  rbind (as_array existingCredentials) (fun existing =>
  rbind (findIndex (same_email (email c)) existing) (fun credentialIndex =>
  Ok (if 0 <=? credentialIndex
      then <[Z.to_nat credentialIndex := Credential_to_JSON (normalized c)]>
             existing
      else existing ++ [Credential_to_JSON (normalized c)]))).

(** [n] submits of the login form in a row. *)
Fixpoint submits (n : nat) (s : UI * World) : UI * World :=
  match n with
  | O => s
  | S n' => snd (onSubmit (submits n' s))
  end.

(** The validation a submit in state [s] would run. *)
Definition validation (s : UI * World) : result bool :=
  fst (validateCredentials (values_email (fst s)) (values_password (fst s))
         (snd s)).

End Views.

(** The shapes the readers expect. *)
Definition is_credential_list (v : JSON) : Prop :=
  exists l, v = JArr (map Credential_to_JSON l).

Definition is_session (v : JSON) : Prop :=
  exists s, v = Session_to_JSON s.

(** Scanning the loaded value for [e] throws: it is not an array, or an
    element met before a match has no string [email]. *)
Definition scan_throws (e : string) (loaded : JSON) : Prop :=
  exists err, rbind (as_array loaded) (findIndex (same_email e)) = Throw err.

(** The entries of [l] whose normalized email is that of [e]. *)
Definition entries_for (e : string) (l : list Credential) : list Credential :=
  filter (fun c => toLowerCase (email c) = toLowerCase e) l.

(** At most one entry per normalized email. *)
Definition at_most_one (l : list Credential) : Prop :=
  forall e, (length (entries_for e l) <= 1)%nat.

(** The test [validate] applies to an entry. *)
Definition matches (e p : string) (c : Credential) : bool :=
  String.eqb (toLowerCase (email c)) (toLowerCase e) &&
  String.eqb (password c) p.

(** The counter and the flag of the login screen agree: locked out exactly
    at the maximum, and otherwise a number of failures below it. *)
Definition counter_ok (ui : UI) : Prop :=
  if isLockedOut ui then failedAttempts ui = MAX_FAILED_ATTEMPTS
  else 0 <= failedAttempts ui < MAX_FAILED_ATTEMPTS.

(** What the user does on the login screen: submit, or edit the email. *)
Inductive LoginEvent : Type :=
  | Submit
  | EmailChanged (text : string).

Section LoginEvents.
Context `{Platform}.

Definition login_event (ev : LoginEvent) (s : UI * World) : UI * World :=
  match ev with
  | Submit => snd (onSubmit s)
  | EmailChanged text => (handleChange_email text (fst s), snd s)
  end.

Definition login_events (evs : list LoginEvent) (s : UI * World)
  : UI * World :=
  fold_left (fun s ev => login_event ev s) evs s.

End LoginEvents.

(** [v.k] on a value that is not [null]. *)
Definition field (k : string) (v : JSON) : option JSON :=
  match v with
  | JObj m => member k m
  | _ => None
  end.

(** The profile the screens put in the store for an entry: its fields but
    the password. *)
Definition profile (c : Credential) : list (string * option JSON) :=
  [("email", Some (JStr (email c))); ("firstName", Some (JStr (firstName c)));
   ("lastName", Some (JStr (lastName c)));
   ("phoneNumber", Some (JStr (phoneNumber c)))].

(** The credential a sign-up form submits. *)
Definition form_credential (values : SignUpFormValues) : Credential :=
  mkCredential (form_email values) (form_password values)
    (form_firstName values) (form_lastName values) (form_phoneNumber values).

(** ** Concrete worlds, run on the mock platform of the test suite *)
Module Scenario.

Definition fresh : World := mkWorld ∅ [] [] [] 1700000000000 [5%N].

(** A keychain whose third call rejects. *)
Definition flaky : World :=
  mkWorld ∅ [false; false; true; false] [] [3%N; 1%N] 1000 [].

Definition john : Credential :=
  mkCredential "Test@Example.com" "password123" "John" "Doe" "5551234567".

Definition john_again : Credential :=
  mkCredential "TEST@example.COM" "Password456" "Johnny" "Doe" "5550000000".

Definition jane : Credential :=
  mkCredential "jane@example.com" "securepass456" "Jane" "Smith"
    "0987654321".

(** Slots written by something other than the service: valid JSON of
    another shape. *)
Definition tampered : World :=
  mkWorld
    (<[CREDENTIALS_SERVICE := ("credentials", "encrypted_42")]>
       (<[SESSION_SERVICE :=
            ("session", "encrypted_{}")]> ∅))
    [] [] [] 0 [].

(** Slots whose text is not JSON: a truncated blob and an empty one. *)
Definition garbled : World :=
  mkWorld
    (<[CREDENTIALS_SERVICE := ("credentials", "encrypted_[{")]>
       (<[SESSION_SERVICE := ("session", "")]> ∅))
    [] [] [] 0 [].

(** Jane is registered; the next keychain call rejects. *)
Definition read_fails : World :=
  mkWorld
    (<[CREDENTIALS_SERVICE :=
         ("credentials",
          Jest.encrypt (Json.stringify (JArr [Credential_to_JSON jane])))]>
       ∅)
    [true] [] [] 0 [].

(** Logged in, with the three slots written. *)
Definition logged_in : World :=
  mkWorld
    (<[CREDENTIALS_SERVICE :=
         ("credentials",
          Jest.encrypt (Json.stringify (JArr [Credential_to_JSON jane])))]>
       (<[SESSION_SERVICE :=
            ("session",
             Jest.encrypt
               (Json.stringify
                  (Session_to_JSON (mkSession "jane@example.com" 999))))]>
          (<[KEYCHAIN_SERVICE :=
               ("userData",
                Jest.encrypt
                  (Json.stringify
                     (UserData_to_JSON
                        (mkUserData "jane@example.com" "Jane" "Smith"
                           "0987654321"))))]> ∅)))
    [] [] [] 1000 [].

Definition login_screen : UI :=
  mkUI None "Login" "nobody@example.com" "password123" "" 0 false.

Definition home_screen : UI :=
  mkUI (Some [("email", Some (JStr "jane@example.com"))]) "Home" "" "" ""
    0 false.

End Scenario.

(** ** Concrete screens and storages for the screens' properties *)
Module Walkthrough.

Definition jane_data : UserData :=
  mkUserData "jane@example.com" "Jane" "Smith" "0987654321".

(** Jane types her email with capitals. *)
Definition jane_login : UI :=
  mkUI None "Login" "Jane@Example.com" "securepass456" "" 0 false.

(** The same after three failed attempts. *)
Definition jane_third_try : UI :=
  mkUI None "Login" "Jane@Example.com" "securepass456"
    "Invalid email or password. 2 attempt(s) remaining." 3 false.

Definition locked_screen : UI :=
  mkUI None "Login" "jane@example.com" "guess" LOCKED_OUT_MESSAGE 5 true.

Definition splash : UI := mkUI None "Splash" "" "" "" 0 false.

Definition signup_screen : UI := mkUI None "SignUp" "" "" "" 0 false.

Definition jane_form : SignUpFormValues :=
  mkSignUpFormValues "Jane@Example.com" "securepass456" "securepass456"
    "Jane" "Smith" "0987654321".

(** A storage that holds a setting of another screen. *)
Definition other_settings : Storage :=
  mkStorage (<["@AccountSetup:theme" := "dark"]> ∅) [] [].

(** The same, the next call rejecting. *)
Definition failing_storage : Storage :=
  mkStorage (<["@AccountSetup:theme" := "dark"]> ∅) [true] [].


(** A session of somebody who is not registered. *)
Definition orphan_session : World :=
  mkWorld
    (<[SESSION_SERVICE :=
         ("session",
          Jest.encrypt
            (Json.stringify
               (Session_to_JSON (mkSession "ghost@example.com" 999))))]> ∅)
    [] [] [] 1000 [].

End Walkthrough.

(** * Properties *)

(** ** The concrete codec reads back what it writes *)
Module JsonFacts.
Import Json.

Lemma print_arr l : print (JArr l) = "["%char :: print_elems l.
Proof.
  reflexivity.
Qed.

Lemma print_obj m : print (JObj m) = "{"%char :: print_members m.
Proof.
  reflexivity.
Qed.

Lemma parse_chars_escape_char c tl :
  parse_chars (escape_char c ++ tl) =
  match parse_chars tl with
  | Some (str, rest) => Some (c :: str, rest)
  | None => None
  end.
Proof.
  destruct c as [[] [] [] [] [] [] [] []]; reflexivity.
Qed.

Lemma parse_chars_escape s rest :
  parse_chars (escape s ++ "034"%char :: rest) = Some (s, rest).
Proof.
  induction s as [|c s IH]; [reflexivity|].
  cbn [escape]. rewrite <- app_assoc, parse_chars_escape_char, IH.
  reflexivity.
Qed.

Lemma span_num_app tok rest :
  forallb is_num_char tok = true -> tail_ok rest ->
  span_num (tok ++ rest) = (tok, rest).
Proof.
  induction tok as [|c tok IH]; cbn [app span_num forallb]; intros Hall Hrest.
  - destruct rest as [|d rest]; [reflexivity|].
    cbn [span_num]. cbn in Hrest. rewrite Hrest. reflexivity.
  - apply andb_true_iff in Hall as [-> Hall]. rewrite IH by assumption.
    reflexivity.
Qed.

Lemma uint_chars d :
  forallb is_num_char (chars (NilEmpty.string_of_uint d)) = true.
Proof. induction d; cbn; auto. Qed.

Lemma nz_uint_chars d :
  forallb is_num_char (chars (NilZero.string_of_uint d)) = true.
Proof. destruct d; try reflexivity; exact (uint_chars _). Qed.

Lemma print_num_chars z : forallb is_num_char (print_num z) = true.
Proof.
  unfold print_num.
  destruct (Z.to_int z) as [d|d]; [exact (nz_uint_chars d)|].
  exact (nz_uint_chars d).
Qed.

Lemma print_num_head z :
  exists c r, print_num z = c :: r /\ is_num_char c = true.
Proof.
  pose proof (print_num_chars z) as Hall. revert Hall. unfold print_num.
  destruct (Z.to_int z) as [d|d]; destruct d; cbn;
    intros Hall; eexists _, _; (split; [reflexivity|]); reflexivity.
Qed.

Lemma to_int_proper z : Z.to_int z <> Decimal.Pos Decimal.Nil /\
                        Z.to_int z <> Decimal.Neg Decimal.Nil.
Proof.
  destruct z as [|q|q]; cbn; split; try discriminate;
    intros [= E]; exact (DecimalPos.Unsigned.to_uint_nonnil q E).
Qed.

Lemma parse_num_print z rest :
  tail_ok rest -> parse_num (print_num z ++ rest) = Some (JNum z, rest).
Proof.
  intros Hrest. unfold parse_num.
  rewrite (span_num_app _ _ (print_num_chars z) Hrest).
  unfold print_num at 1, chars. rewrite string_of_list_ascii_of_string.
  destruct (to_int_proper z) as [Hp Hn].
  rewrite (NilZero.isi _ Hp Hn), DecimalZ.of_to.
  rewrite bool_decide_eq_true_2 by reflexivity. reflexivity.
Qed.

Lemma num_char_starts c :
  is_num_char c = true ->
  is_ws c = false /\ Ascii.eqb c "]" = false /\ Ascii.eqb c "}" = false.
Proof.
  destruct c as [[] [] [] [] [] [] [] []]; cbn; intros Hc;
    first [discriminate Hc | repeat split].
Qed.

Lemma print_starts v rest : starts_value (print v ++ rest).
Proof.
  destruct v as [|[]|z|s|l|m];
    try (eexists _, _; repeat split; reflexivity).
  destruct (print_num_head z) as (c & r & E & Hc).
  exists c, (r ++ rest). cbn [print]. rewrite E.
  split; [reflexivity | exact (num_char_starts c Hc)].
Qed.

(** Replace a closed boolean test by its value. *)
Ltac known e := let v := eval vm_compute in e in change e with v; cbv iota.

Ltac not_a_literal c :=
  known (is_ws c); known (is_num_char c); known (Ascii.eqb c "n");
  known (Ascii.eqb c "t"); known (Ascii.eqb c "f").

Lemma value_step_array e m s :
  starts_value s ->
  value_step e m ("["%char :: s) =
  option_map (fun '(l, rest) => (JArr l, rest)) (e s).
Proof.
  intros (c & r & -> & Hws & Hc & _).
  unfold value_step. cbn [skip_ws]. not_a_literal "["%char.
  known (Ascii.eqb "[" "034"). known (Ascii.eqb "[" "[").
  cbn [skip_ws]. rewrite Hws, Hc. reflexivity.
Qed.

Lemma value_step_object e m s :
  starts_value s ->
  value_step e m ("{"%char :: s) =
  option_map (fun '(l, rest) => (JObj l, rest)) (m s).
Proof.
  intros (c & r & -> & Hws & _ & Hc).
  unfold value_step. cbn [skip_ws]. not_a_literal "{"%char.
  known (Ascii.eqb "{" "034"). known (Ascii.eqb "{" "[").
  known (Ascii.eqb "{" "{"). cbn [skip_ws]. rewrite Hws, Hc. reflexivity.
Qed.

Lemma value_step_number e m z rest :
  tail_ok rest ->
  value_step e m (print_num z ++ rest) = Some (JNum z, rest).
Proof.
  intros Hrest. rewrite <- (parse_num_print z rest Hrest).
  destruct (print_num_head z) as (c & r & E & Hc). rewrite E.
  destruct (num_char_starts c Hc) as (Hws & _).
  unfold value_step. cbn [app skip_ws]. rewrite Hws, Hc. reflexivity.
Qed.

Lemma value_step_string e m s rest :
  value_step e m (quote s ++ rest) = Some (JStr s, rest).
Proof.
  unfold quote, value_step. cbn [app skip_ws].
  not_a_literal "034"%char. known (Ascii.eqb "034" "034").
  rewrite <- app_assoc. cbn [app].
  rewrite parse_chars_escape. unfold chars.
  rewrite string_of_list_ascii_of_string. reflexivity.
Qed.

Lemma members_step_key v ms k s :
  members_step v ms (quote k ++ ":"%char :: s) =
  match v s with
  | Some (x, r) =>
      match skip_ws r with
      | d :: r' =>
          if Ascii.eqb d "}" then Some ([(k, x)], r')
          else if Ascii.eqb d "," then
            option_map (fun '(m, rest) => ((k, x) :: m, rest)) (ms r')
          else None
      | [] => None
      end
  | None => None
  end.
Proof.
  unfold quote, members_step. cbn [app skip_ws].
  known (is_ws "034"). known (Ascii.eqb "034" "034").
  rewrite <- app_assoc. cbn [app].
  rewrite parse_chars_escape. unfold chars.
  rewrite string_of_list_ascii_of_string. reflexivity.
Qed.

Lemma print_nonempty v : (1 <= length (print v))%nat.
Proof.
  destruct (print_starts v []) as (c & r & E & _).
  rewrite app_nil_r in E. rewrite E. cbn. lia.
Qed.

Lemma parse_print fuel :
  (forall v rest,
      (length (print v) <= fuel)%nat -> tail_ok rest ->
      parse_value fuel (print v ++ rest) = Some (v, rest)) /\
  (forall l rest,
      l <> [] -> (length (print_elems l) <= fuel)%nat ->
      parse_elements fuel (print_elems l ++ rest) = Some (l, rest)) /\
  (forall m rest,
      m <> [] -> (length (print_members m) <= fuel)%nat ->
      parse_members fuel (print_members m ++ rest) = Some (m, rest)).
Proof.
  induction fuel as [|fuel (IHv & IHl & IHm)].
  - repeat split.
    + intros v rest Hlen. pose proof (print_nonempty v). lia.
    + intros [|v l] rest Hne Hlen; [done|].
      cbn [print_elems] in Hlen. rewrite length_app in Hlen.
      pose proof (print_nonempty v). lia.
    + intros [|[k v] m] rest Hne Hlen; [done|].
      cbn in Hlen. lia.
  - repeat split.
    + intros v rest Hlen Hrest. cbn [parse_value].
      destruct v as [|[]|z|s|l|m]; try reflexivity.
      * apply value_step_number, Hrest.
      * apply value_step_string.
      * rewrite print_arr in *. cbn [app length] in *.
        destruct l as [|v l]; [reflexivity|].
        rewrite value_step_array.
        -- rewrite IHl; [reflexivity | done | lia].
        -- cbn [print_elems]. rewrite <- app_assoc. apply print_starts.
      * rewrite print_obj in *. cbn [app length] in *.
        destruct m as [|[k v] m]; [reflexivity|].
        rewrite value_step_object.
        -- rewrite IHm; [reflexivity | done | lia].
        -- eexists _, _. cbn. repeat split; reflexivity.
    + intros [|v l] rest Hne Hlen; [done|]. clear Hne.
      cbn [parse_elements print_elems] in *. rewrite length_app in Hlen.
      rewrite <- app_assoc. unfold elements_step.
      destruct l as [|v' l].
      * rewrite IHv; [reflexivity | cbn in Hlen; lia | reflexivity].
      * cbn [length] in Hlen.
        rewrite IHv; [ | lia | reflexivity].
        cbn [app skip_ws]. known (is_ws ",").
        known (Ascii.eqb "," "]"). known (Ascii.eqb "," ",").
        rewrite IHl; [reflexivity | done | lia].
    + intros [|[k v] m] rest Hne Hlen; [done|]. clear Hne.
      cbn [parse_members print_members] in *.
      rewrite !length_app in Hlen. cbn [length] in Hlen.
      rewrite length_app in Hlen.
      rewrite <- app_assoc. cbn [app]. rewrite <- app_assoc.
      rewrite members_step_key.
      destruct m as [|kv m].
      * rewrite IHv; [reflexivity | cbn in Hlen; lia | reflexivity].
      * cbn [length] in Hlen.
        rewrite IHv; [ | lia | reflexivity].
        cbn [app skip_ws]. known (is_ws ",").
        known (Ascii.eqb "," "}"). known (Ascii.eqb "," ",").
        rewrite IHm; [reflexivity | done | lia].
Qed.

Lemma string_length_of_list l :
  String.length (string_of_list_ascii l) = length l.
Proof. induction l as [|c l IH]; cbn; congruence. Qed.

Theorem parse_stringify v : parse (stringify v) = Ok v.
Proof.
  unfold parse, stringify, chars.
  rewrite string_length_of_list, list_ascii_of_string_of_list_ascii.
  destruct (parse_print (S (length (print v)))) as (Hv & _).
  rewrite <- (app_nil_r (print v)) at 2.
  rewrite Hv; [reflexivity | lia | exact I].
Qed.

End JsonFacts.

(** ** The mock cipher decrypts what it encrypts *)
Module JestFacts.
Import Json Jest.

Lemma chars_app a b : chars (a +:+ b) = chars a ++ chars b.
Proof.
  unfold chars. induction a as [|c a IH]; [reflexivity|].
  change (String c a +:+ b) with (String c (a +:+ b)).
  cbn [list_ascii_of_string app]. f_equal. exact IH.
Qed.

Lemma strip_prefix_app pre s : strip_prefix pre (pre ++ s) = Some s.
Proof.
  induction pre as [|c pre IH]; cbn; [reflexivity|].
  rewrite Ascii.eqb_refl. exact IH.
Qed.

Lemma remove_first_app pre s : remove_first pre (pre ++ s) = s.
Proof.
  pose proof (strip_prefix_app pre s) as E.
  destruct (pre ++ s) as [|c l]; cbn [remove_first]; rewrite E; reflexivity.
Qed.

Lemma decrypt_encrypt data : decrypt (encrypt data) = data.
Proof.
  unfold decrypt, encrypt. rewrite chars_app, remove_first_app.
  apply string_of_list_ascii_of_string.
Qed.

#[export] Instance laws : PlatformLaws platform.
Proof.
  split.
  - intros salt data key. cbn. f_equal. apply decrypt_encrypt.
  - exact JsonFacts.parse_stringify.
Qed.

End JestFacts.

(** ** Running the service step by step *)

Section Execution.
Context `{P : Platform}.

Lemma getCredentialsFromKeychain_eq w :
  getCredentialsFromKeychain w =
  (Ok (slot_view CREDENTIALS_SERVICE (JArr []) w),
   logged (GetGenericPassword CREDENTIALS_SERVICE) w).
Proof.
  unfold getCredentialsFromKeychain, slot_view, try_catch, bind,
    Keychain_getGenericPassword, keychain_call, gets, decode, lift, ret.
  destruct (rejects_at 0 w); [reflexivity|].
  change (keychain (logged _ w)) with (keychain w).
  destruct (keychain w !! CREDENTIALS_SERVICE) as [[u blob]|]; [|reflexivity].
  destruct (decryptData blob) as [d|e]; [|reflexivity].
  cbn [rbind]. destruct (JSON_parse d); reflexivity.
Qed.

Lemma getSession_eq w :
  getSession w =
  (Ok (slot_view SESSION_SERVICE JNull w),
   logged (GetGenericPassword SESSION_SERVICE) w).
Proof.
  unfold getSession, slot_view, try_catch, bind,
    Keychain_getGenericPassword, keychain_call, gets, decode, lift, ret.
  destruct (rejects_at 0 w); [reflexivity|].
  change (keychain (logged _ w)) with (keychain w).
  destruct (keychain w !! SESSION_SERVICE) as [[u blob]|]; [|reflexivity].
  destruct (decryptData blob) as [d|e]; [|reflexivity].
  cbn [rbind]. destruct (JSON_parse d); reflexivity.
Qed.

Lemma getUserDataFromKeychain_eq w :
  getUserDataFromKeychain w =
  (Ok (slot_view KEYCHAIN_SERVICE JNull w),
   logged (GetGenericPassword KEYCHAIN_SERVICE) w).
Proof.
  unfold getUserDataFromKeychain, slot_view, try_catch, bind,
    Keychain_getGenericPassword, keychain_call, gets, decode, lift, ret.
  destruct (rejects_at 0 w); [reflexivity|].
  change (keychain (logged _ w)) with (keychain w).
  destruct (keychain w !! KEYCHAIN_SERVICE) as [[u blob]|]; [|reflexivity].
  destruct (decryptData blob) as [d|e]; [|reflexivity].
  cbn [rbind]. destruct (JSON_parse d); reflexivity.
Qed.

Lemma rejects_at_logged n c w :
  rejects_at n (logged c w) = rejects_at (S n) w.
Proof. unfold rejects_at, logged. cbn. destruct (faults w); destruct n; reflexivity. Qed.

Lemma storeCredentialsInKeychain_eq e p f l ph w :
  storeCredentialsInKeychain e p f l ph w =
  let w1 := logged (GetGenericPassword CREDENTIALS_SERVICE) w in
  match updatedCredentials (mkCredential e p f l ph)
          (slot_view CREDENTIALS_SERVICE (JArr []) w) with
  | Throw _ => (Ok false, w1)
  | Ok l' =>
      let blob := AES_encrypt (hd 0%N (salts w)) (JSON_stringify (JArr l'))
                    ENCRYPTION_KEY in
      let w2 := logged
                  (SetGenericPassword CREDENTIALS_KEY blob CREDENTIALS_SERVICE)
                  (with_salts (tail (salts w)) w1) in
      if rejects_at 1 w then (Ok false, w2)
      else (Ok true,
            with_keychain
              (<[CREDENTIALS_SERVICE := (CREDENTIALS_KEY, blob)]> (keychain w))
              w2)
  end.
Proof.
  unfold storeCredentialsInKeychain, try_catch, bind at 1.
  rewrite getCredentialsFromKeychain_eq.
  unfold updatedCredentials, lift, bind at 1.
  destruct (as_array _) as [existing|err]; [|reflexivity].
  cbn [rbind]. unfold bind at 1.
  change (findIndex _ existing)
    with (findIndex (same_email e) existing).
  destruct (findIndex _ existing) as [i|err]; [|reflexivity].
  cbn [rbind email]. unfold bind at 1, encryptData.
  unfold bind, Keychain_setGenericPassword, keychain_call, modify, ret.
  change (rejects_at 0 (with_salts _ (logged _ w)))
    with (rejects_at 0 (logged (GetGenericPassword CREDENTIALS_SERVICE) w)).
  rewrite rejects_at_logged.
  destruct (rejects_at 1 w); reflexivity.
Qed.

End Execution.

(** ** Letter case *)

Lemma lower_ascii_idem c : lower_ascii (lower_ascii c) = lower_ascii c.
Proof. destruct c as [[] [] [] [] [] [] [] []]; reflexivity. Qed.

Lemma toLowerCase_idem s : toLowerCase (toLowerCase s) = toLowerCase s.
Proof.
  induction s as [|c s IH]; [reflexivity|].
  cbn [toLowerCase]. rewrite lower_ascii_idem, IH. reflexivity.
Qed.

Lemma case_variant_ascii_lower c d :
  case_variant_ascii c d -> lower_ascii c = lower_ascii d.
Proof.
  intros [->|Hcd]; [reflexivity|]. cbv zeta in Hcd. unfold lower_ascii.
  remember (N_of_ascii c) as n eqn:En. remember (N_of_ascii d) as m eqn:Em.
  assert (Ec : c = ascii_of_N n)
    by (subst n; symmetry; apply ascii_N_embedding).
  assert (Ed : d = ascii_of_N m)
    by (subst m; symmetry; apply ascii_N_embedding).
  destruct (N.leb_spec 65 n), (N.leb_spec n 90), (N.leb_spec 65 m),
    (N.leb_spec m 90); cbn [andb]; rewrite ?Ec, ?Ed; f_equal; lia.
Qed.

Lemma case_variant_lower s t :
  case_variant s t -> toLowerCase s = toLowerCase t.
Proof.
  induction 1 as [|c d s t Hcd _ IH]; [reflexivity|].
  cbn [toLowerCase]. rewrite (case_variant_ascii_lower c d Hcd), IH.
  reflexivity.
Qed.

(** ** The scan of the stored array *)

Lemma same_email_entry e c :
  same_email e (Credential_to_JSON c) =
  Ok (String.eqb (toLowerCase (email c)) (toLowerCase e)).
Proof. reflexivity. Qed.

Lemma findIndex_from_range k p l i :
  0 <= k -> findIndex_from k p l = Ok i -> i = -1 \/ k <= i.
Proof.
  revert k. induction l as [|x r IH]; intros k Hk; cbn [findIndex_from].
  - intros [= <-]. left. reflexivity.
  - destruct (p x) as [[]|err]; cbn [rbind]; [| |discriminate].
    + intros [= <-]. right. lia.
    + intros Hi. destruct (IH (k + 1) ltac:(lia) Hi); [left|right]; lia.
Qed.

Lemma findIndex_from_replace k p new l :
  0 <= k ->
  rbind (findIndex_from k p l) (fun i =>
    Ok (if k <=? i then <[Z.to_nat (i - k) := new]> l else l ++ [new])) =
  replace_or_append p new l.
Proof.
  revert k. induction l as [|x r IH]; intros k Hk;
    cbn [findIndex_from replace_or_append rbind].
  - destruct (k <=? -1) eqn:E; [lia | reflexivity].
  - destruct (p x) as [[]|err]; cbn [rbind]; [| |reflexivity].
    + rewrite Z.leb_refl, Z.sub_diag. reflexivity.
    + rewrite <- (IH (k + 1)) by lia.
      destruct (findIndex_from (k + 1) p r) as [i|err] eqn:Ei;
        cbn [rbind]; [|reflexivity].
      destruct (findIndex_from_range (k + 1) p r i ltac:(lia) Ei) as [->|Hi].
      * destruct (k <=? -1) eqn:E1; [lia|].
        destruct (k + 1 <=? -1) eqn:E2; [lia|]. reflexivity.
      * destruct (k <=? i) eqn:E1; [|lia].
        destruct (k + 1 <=? i) eqn:E2; [|lia].
        replace (Z.to_nat (i - k)) with (S (Z.to_nat (i - (k + 1)))) by lia.
        reflexivity.
Qed.

Lemma updatedCredentials_array `{Platform} c l :
  updatedCredentials c (JArr l) =
  replace_or_append (same_email (email c))
    (Credential_to_JSON (normalized c)) l.
Proof.
  unfold updatedCredentials, findIndex. cbn [as_array rbind].
  rewrite <- (findIndex_from_replace 0) by lia.
  destruct (findIndex_from 0 _ l) as [i|err]; cbn [rbind]; [|reflexivity].
  rewrite Z.sub_0_r. reflexivity.
Qed.

(** After the write-back, the lookup finds the new entry, whatever else the
    array holds. *)
Lemma find_replace_or_append p new l l' :
  p new = Ok true -> replace_or_append p new l = Ok l' ->
  find p l' = Ok (Some new).
Proof.
  intros Hnew. revert l'.
  induction l as [|x r IH]; intros l'; cbn [replace_or_append].
  - intros [= <-]. cbn [find]. rewrite Hnew. reflexivity.
  - destruct (p x) as [[]|err] eqn:Ex; cbn [rbind]; [| |discriminate].
    + intros [= <-]. cbn [find]. rewrite Hnew. reflexivity.
    + destruct (replace_or_append p new r) as [r'|err];
        cbn [rbind]; [|discriminate].
      intros [= <-]. cbn [find]. rewrite Ex. cbn [rbind]. apply IH.
      reflexivity.
Qed.

Lemma replace_or_append_entries c l :
  replace_or_append (same_email (email c))
    (Credential_to_JSON (normalized c)) (map Credential_to_JSON l) =
  Ok (map Credential_to_JSON (upsert_list c l)).
Proof.
  induction l as [|x r IH]; [reflexivity|].
  cbn [map replace_or_append upsert_list]. rewrite same_email_entry.
  cbn [rbind].
  destruct (String.eqb (toLowerCase (email x)) (toLowerCase (email c)));
    [reflexivity|].
  rewrite IH. reflexivity.
Qed.

(** ** Lists with one entry per email *)

Lemma entries_for_cons e x l :
  entries_for e (x :: l) =
  if decide (toLowerCase (email x) = toLowerCase e)
  then x :: entries_for e l else entries_for e l.
Proof. unfold entries_for. rewrite filter_cons. reflexivity. Qed.

Lemma at_most_one_nil : at_most_one [].
Proof. intros e. cbn. lia. Qed.

Lemma at_most_one_tail x l : at_most_one (x :: l) -> at_most_one l.
Proof.
  intros Hl e. specialize (Hl e). rewrite entries_for_cons in Hl.
  destruct (decide _); cbn [length] in Hl; lia.
Qed.

Lemma at_most_one_head x l :
  at_most_one (x :: l) -> entries_for (email x) l = [].
Proof.
  intros Hl. specialize (Hl (email x)). rewrite entries_for_cons in Hl.
  destruct (decide _) as [_|Hne]; [|done].
  cbn [length] in Hl. destruct (entries_for (email x) l); [reflexivity|].
  cbn [length] in Hl. lia.
Qed.

Lemma normalized_key c :
  toLowerCase (email (normalized c)) = toLowerCase (email c).
Proof. apply toLowerCase_idem. Qed.

Lemma upsert_list_at_most_one c l :
  at_most_one l -> at_most_one (upsert_list c l).
Proof.
  induction l as [|x r IH]; intros Hl; cbn [upsert_list].
  - intros e. rewrite entries_for_cons.
    destruct (decide _); cbn; lia.
  - destruct (String.eqb_spec (toLowerCase (email x)) (toLowerCase (email c)))
      as [Heq|Hne].
    + intros e. specialize (Hl e).
      rewrite entries_for_cons in *. rewrite normalized_key, <- Heq.
      destruct (decide _); cbn [length] in *; lia.
    + pose proof (IH (at_most_one_tail _ _ Hl)) as IH'.
      intros e. rewrite entries_for_cons.
      destruct (decide (toLowerCase (email x) = toLowerCase e)) as [Hx|Hx];
        [|apply IH'].
      cbn [length].
      pose proof (Hl e) as Hle. rewrite entries_for_cons in Hle.
      destruct (decide _); [|done]. cbn [length] in Hle.
      assert (Hr : entries_for e r = []).
      { destruct (entries_for e r); [reflexivity | cbn in Hle; lia]. }
      clear IH IH' Hl Hle. revert Hr.
      induction r as [|y r IHr]; cbn [upsert_list].
      * intros _. rewrite entries_for_cons, normalized_key.
        destruct (decide _) as [Hc|_]; [congruence | cbn; lia].
      * rewrite entries_for_cons. destruct (decide _) as [Hy|Hy]; [discriminate|].
        intros Hr.
        destruct (String.eqb (toLowerCase (email y)) (toLowerCase (email c))).
        -- rewrite entries_for_cons, normalized_key.
           destruct (decide _) as [Hc|_]; [congruence|]. rewrite Hr. cbn. lia.
        -- rewrite entries_for_cons. destruct (decide _); [done|]. apply IHr, Hr.
Qed.

Lemma upsert_list_self c l :
  at_most_one l -> entries_for (email c) (upsert_list c l) = [normalized c].
Proof.
  induction l as [|x r IH]; intros Hl; cbn [upsert_list].
  - rewrite entries_for_cons, normalized_key.
    destruct (decide _); [reflexivity | done].
  - destruct (String.eqb_spec (toLowerCase (email x)) (toLowerCase (email c)))
      as [Heq|Hne].
    + rewrite entries_for_cons, normalized_key.
      destruct (decide _); [|done]. f_equal.
      pose proof (at_most_one_head _ _ Hl) as Hr.
      unfold entries_for in *. rewrite <- Heq. exact Hr.
    + rewrite entries_for_cons. destruct (decide _); [done|].
      apply IH, (at_most_one_tail _ _ Hl).
Qed.

Lemma at_most_one_unique l c c' :
  at_most_one l -> c ∈ l -> c' ∈ l ->
  toLowerCase (email c) = toLowerCase (email c') -> c = c'.
Proof.
  intros Hl Hc Hc' Hk. specialize (Hl (email c)).
  assert (H1 : c ∈ entries_for (email c) l)
    by (apply list_elem_of_filter; done).
  assert (H2 : c' ∈ entries_for (email c) l)
    by (apply list_elem_of_filter; done).
  destruct (entries_for (email c) l) as [|y [|z t]]; cbn [length] in Hl.
  - inversion H1.
  - apply list_elem_of_singleton in H1, H2. congruence.
  - lia.
Qed.

(** ** The credential repository *)

Section Repository.
Context `{P : Platform} {L : PlatformLaws P}.

Lemma decode_encrypt salt v :
  decode (AES_encrypt salt (JSON_stringify v) ENCRYPTION_KEY) = Ok v.
Proof.
  unfold decode, decryptData. rewrite AES_round_trip. cbn [rbind].
  apply JSON_round_trip.
Qed.

Lemma slot_view_stored w l :
  stored_credentials w l ->
  slot_view CREDENTIALS_SERVICE (JArr []) w =
  JArr (map Credential_to_JSON (if rejects_at 0 w then [] else l)).
Proof.
  unfold stored_credentials, slot_view. intros Hl.
  destruct (rejects_at 0 w); [reflexivity|].
  destruct (keychain w !! CREDENTIALS_SERVICE) as [[u blob]|].
  - rewrite Hl. reflexivity.
  - subst l. reflexivity.
Qed.

(** [list()] returns the stored list when the keychain read resolves. *)
Lemma list_reads_stored w l :
  stored_credentials w l -> rejects_at 0 w = false ->
  fst (getCredentialsFromKeychain w) = Ok (JArr (map Credential_to_JSON l)).
Proof.
  intros Hl Hr. rewrite getCredentialsFromKeychain_eq. cbn [fst].
  rewrite (slot_view_stored w l Hl), Hr. reflexivity.
Qed.

(** One upsert on a well-formed slot: it fails exactly when the write
    rejects; a rejected read makes it start from the empty list. *)
Lemma upsert_stored c w l :
  stored_credentials w l ->
  exists w',
    upsert c w = (Ok (negb (rejects_at 1 w)), w') /\
    stored_credentials w'
      (if rejects_at 1 w then l
       else upsert_list c (if rejects_at 0 w then [] else l)).
Proof.
  intros Hl. unfold upsert. rewrite storeCredentialsInKeychain_eq. cbv zeta.
  rewrite (slot_view_stored w l Hl).
  replace (mkCredential (email c) (password c) (firstName c) (lastName c)
             (phoneNumber c)) with c by (destruct c; reflexivity).
  rewrite updatedCredentials_array, replace_or_append_entries.
  destruct (rejects_at 1 w); eexists; (split; [reflexivity|]).
  - exact Hl.
  - unfold stored_credentials. cbn [keychain with_keychain].
    rewrite lookup_insert_eq. apply decode_encrypt.
Qed.

Lemma upsert_keeps_unique c w l :
  stored_credentials w l -> at_most_one l ->
  exists l', stored_credentials (snd (upsert c w)) l' /\ at_most_one l'.
Proof.
  intros Hl Hu. destruct (upsert_stored c w l Hl) as (w' & -> & Hl').
  eexists. split; [exact Hl'|].
  destruct (rejects_at 1 w); [exact Hu|].
  apply upsert_list_at_most_one.
  destruct (rejects_at 0 w); [apply at_most_one_nil | exact Hu].
Qed.

Lemma upserts_keep_unique cs w l :
  stored_credentials w l -> at_most_one l ->
  exists l', stored_credentials (upserts cs w) l' /\ at_most_one l'.
Proof.
  revert w l. induction cs as [|c cs IH]; intros w l Hl Hu.
  - exists l. split; assumption.
  - cbn [upserts].
    destruct (upsert_keeps_unique c w l Hl Hu) as (l' & Hl' & Hu').
    exact (IH _ l' Hl' Hu').
Qed.

Lemma upserts_app cs cs' w :
  upserts (cs ++ cs') w = upserts cs' (upserts cs w).
Proof.
  revert w. induction cs as [|c cs IH]; intros w; [reflexivity|].
  cbn [app upserts]. apply IH.
Qed.

(** C1. Starting from an empty credentials slot, after any sequence of
    upserts (whatever the keychain calls do) the stored list has at most
    one entry per normalized email, and it is the list [list()] returns
    when its read resolves.  In particular, after two upserts with the same
    normalized email, the second of which returned [true], exactly one
    entry has that email, and it holds the fields of the second call. *)
Theorem upserts_one_entry_per_email w0 cs :
  keychain w0 !! CREDENTIALS_SERVICE = None ->
  (exists l,
      stored_credentials (upserts cs w0) l /\ at_most_one l /\
      (rejects_at 0 (upserts cs w0) = false ->
       fst (getCredentialsFromKeychain (upserts cs w0)) =
       Ok (JArr (map Credential_to_JSON l)))) /\
  (forall c1 c2 w',
      toLowerCase (email c1) = toLowerCase (email c2) ->
      upsert c2 (upserts (cs ++ [c1]) w0) = (Ok true, w') ->
      exists l,
        stored_credentials w' l /\
        entries_for (email c1) l = [normalized c2] /\
        entries_for (email c2) l = [normalized c2]).
Proof.
  intros Hempty.
  assert (H0 : stored_credentials w0 [])
    by (unfold stored_credentials; rewrite Hempty; reflexivity).
  split.
  - destruct (upserts_keep_unique cs w0 [] H0 at_most_one_nil)
      as (l & Hl & Hu).
    exists l. split; [exact Hl|]. split; [exact Hu|].
    apply list_reads_stored, Hl.
  - intros c1 c2 w' Hsame Hret.
    destruct (upserts_keep_unique (cs ++ [c1]) w0 [] H0 at_most_one_nil)
      as (l & Hl & Hu).
    destruct (upsert_stored c2 _ l Hl) as (w'' & Hup & Hl').
    rewrite Hup in Hret. injection Hret as Hb <-.
    destruct (rejects_at 1 (upserts (cs ++ [c1]) w0)); [discriminate Hb|].
    eexists. split; [exact Hl'|].
    assert (Hone : forall l0, at_most_one l0 ->
              entries_for (email c2) (upsert_list c2 l0) = [normalized c2])
      by (intros l0; apply upsert_list_self).
    unfold entries_for at 1. rewrite Hsame. fold (entries_for (email c2)).
    destruct (rejects_at 0 _); split;
      first [apply Hone, at_most_one_nil | apply Hone, Hu].
Qed.

Lemma validateCredentials_eq e p w :
  validateCredentials e p w =
  (Ok match rbind (as_array (slot_view CREDENTIALS_SERVICE (JArr []) w))
              (find (same_credentials e p)) with
      | Ok (Some v) => truthy v
      | Ok None | Throw _ => false
      end,
   logged (GetGenericPassword CREDENTIALS_SERVICE) w).
Proof.
  unfold validateCredentials, try_catch, bind at 1.
  rewrite getCredentialsFromKeychain_eq. unfold lift, bind at 1.
  destruct (as_array _) as [l|err]; [|reflexivity].
  cbn [rbind]. unfold bind.
  change (find _ l) with (find (same_credentials e p) l).
  destruct (find _ l) as [[v|]|err]; reflexivity.
Qed.

Lemma getCredentialByEmail_eq e w :
  getCredentialByEmail e w =
  (Ok match rbind (as_array (slot_view CREDENTIALS_SERVICE (JArr []) w))
              (find (same_email e)) with
      | Ok (Some v) => if truthy v then v else JNull
      | Ok None | Throw _ => JNull
      end,
   logged (GetGenericPassword CREDENTIALS_SERVICE) w).
Proof.
  unfold getCredentialByEmail, try_catch, bind at 1.
  rewrite getCredentialsFromKeychain_eq. unfold lift, bind at 1.
  destruct (as_array _) as [l|err]; [|reflexivity].
  cbn [rbind]. unfold bind.
  change (find _ l) with (find (same_email e) l).
  destruct (find _ l) as [[v|]|err]; reflexivity.
Qed.

Lemma updatedCredentials_ok c v l' :
  updatedCredentials c v = Ok l' ->
  exists existing,
    v = JArr existing /\
    replace_or_append (same_email (email c))
      (Credential_to_JSON (normalized c)) existing = Ok l'.
Proof.
  destruct v; try discriminate. rewrite updatedCredentials_array.
  intros Hl'. eexists. split; [reflexivity | exact Hl'].
Qed.

(** C2. After an upsert that returned [true], and provided the keychain
    read of the lookup resolves, [getCredentialByEmail] on the same email
    returns the entry just stored: the lowercased email with the password,
    first name, last name and phone number as given.  This holds whatever
    the slot held before. *)
Theorem upsert_then_find e p f l ph w w' :
  storeCredentialsInKeychain e p f l ph w = (Ok true, w') ->
  rejects_at 0 w' = false ->
  fst (getCredentialByEmail e w') =
  Ok (Credential_to_JSON (mkCredential (toLowerCase e) p f l ph)).
Proof.
  rewrite storeCredentialsInKeychain_eq. cbv zeta.
  destruct (updatedCredentials _ _) as [l'|err] eqn:Eup; [|discriminate].
  destruct (rejects_at 1 w); [discriminate|].
  intros [= <-] Hread.
  rewrite getCredentialByEmail_eq. cbn [fst].
  unfold slot_view. rewrite Hread. cbn [keychain with_keychain].
  rewrite lookup_insert_eq, decode_encrypt. cbn [as_array rbind].
  destruct (updatedCredentials_ok _ _ _ Eup) as (existing & _ & Hrep).
  cbn [email] in Hrep.
  assert (Hnew : same_email e
                   (Credential_to_JSON
                      (normalized (mkCredential e p f l ph))) = Ok true).
  { rewrite same_email_entry, normalized_key. cbn [email].
    rewrite String.eqb_refl. reflexivity. }
  rewrite (find_replace_or_append _ _ _ _ Hnew Hrep). reflexivity.
Qed.

Lemma same_credentials_entry e p c :
  same_credentials e p (Credential_to_JSON c) = Ok (matches e p c).
Proof.
  unfold same_credentials, matches. cbn.
  destruct (String.eqb (toLowerCase (email c)) (toLowerCase e)); reflexivity.
Qed.

Lemma find_same_credentials e p l :
  match find (same_credentials e p) (map Credential_to_JSON l) with
  | Ok (Some v) => truthy v
  | Ok None | Throw _ => false
  end = existsb (matches e p) l.
Proof.
  induction l as [|c l IH]; [reflexivity|].
  cbn [map find existsb]. rewrite same_credentials_entry. cbn [rbind].
  destruct (matches e p c); [reflexivity | exact IH].
Qed.

Lemma validate_stored w l e p :
  stored_credentials w l -> rejects_at 0 w = false ->
  fst (validateCredentials e p w) = Ok (existsb (matches e p) l).
Proof.
  intros Hl Hr. rewrite validateCredentials_eq. cbn [fst].
  rewrite (slot_view_stored w l Hl), Hr. cbn [as_array rbind].
  rewrite find_same_credentials. reflexivity.
Qed.

Lemma existsb_matches e p l :
  existsb (matches e p) l = true <->
  exists c, c ∈ l /\ toLowerCase (email c) = toLowerCase e /\ password c = p.
Proof.
  rewrite existsb_exists. unfold matches. split.
  - intros (c & Hin & Hc). apply andb_true_iff in Hc as [He Hp].
    exists c. rewrite list_elem_of_In.
    apply String.eqb_eq in He, Hp. done.
  - intros (c & Hin & He & Hp). exists c. rewrite <- list_elem_of_In.
    split; [exact Hin|]. apply andb_true_iff.
    split; apply String.eqb_eq; assumption.
Qed.

(** C3. On a stored list [l], when the keychain read resolves,
    [validateCredentials] returns a boolean, and it is [true] exactly when
    some entry of [l] has the same normalized email as the input and a
    password equal, character for character, to the one supplied.  When [l]
    has one entry per email and [(e, p)] validates, a password that differs
    from [p] only in letter case does not. *)
Theorem validate_iff_entry w l e p :
  stored_credentials w l -> rejects_at 0 w = false ->
  (exists b,
      fst (validateCredentials e p w) = Ok b /\
      (b = true <->
       exists c, c ∈ l /\ toLowerCase (email c) = toLowerCase e /\
                 password c = p)) /\
  (at_most_one l ->
   fst (validateCredentials e p w) = Ok true ->
   forall p', case_variant p p' -> p' <> p ->
     fst (validateCredentials e p' w) = Ok false).
Proof.
  intros Hl Hr. split.
  - exists (existsb (matches e p) l).
    split; [apply validate_stored; assumption | apply existsb_matches].
  - intros Hu Hv p' _ Hne.
    rewrite (validate_stored w l e p Hl Hr) in Hv. injection Hv as Hv.
    rewrite (validate_stored w l e p' Hl Hr). f_equal.
    apply not_true_is_false. intros Hv'.
    apply existsb_matches in Hv as (c & Hc & Hce & Hcp).
    apply existsb_matches in Hv' as (c' & Hc' & Hce' & Hcp').
    assert (c = c') by
      (apply (at_most_one_unique l); [assumption.. | congruence]).
    congruence.
Qed.

(** C4. Emails that differ only in letter case are indistinguishable to the
    repository: on every world and with the same other arguments, the
    upsert, the validation and the lookup return the same result and leave
    the same world. *)
Theorem case_insensitive_email e1 e2 :
  case_variant e1 e2 ->
  forall p f l ph w,
    storeCredentialsInKeychain e1 p f l ph w =
    storeCredentialsInKeychain e2 p f l ph w /\
    validateCredentials e1 p w = validateCredentials e2 p w /\
    getCredentialByEmail e1 w = getCredentialByEmail e2 w.
Proof.
  intros Hcv p f l ph w. apply case_variant_lower in Hcv.
  unfold storeCredentialsInKeychain, validateCredentials,
    getCredentialByEmail.
  rewrite Hcv. repeat split; reflexivity.
Qed.

End Repository.

(** ** Decode failures and storage failures *)

Section Failures.
Context `{P : Platform}.

(** C6, as the code has it. A slot whose blob does not decode (decryption
    throws, or [JSON.parse] rejects the decrypted text) reads as an absent
    slot: [getCredentialsFromKeychain] returns the empty array and
    [getSession] returns [null]; and on every world both return a value,
    they never throw.  A blob that decodes is not checked for its shape:
    whatever value it decodes to, a credential list or a session or
    anything else, is what the reader returns when the keychain read
    resolves. *)
Theorem undecodable_slot_reads_as_absent w :
  (forall u blob err,
      keychain w !! CREDENTIALS_SERVICE = Some (u, blob) ->
      decode blob = Throw err ->
      fst (getCredentialsFromKeychain w) = Ok (JArr []) /\
      fst (getCredentialsFromKeychain w) =
      fst (getCredentialsFromKeychain
             (with_keychain (delete CREDENTIALS_SERVICE (keychain w)) w))) /\
  (forall u blob err,
      keychain w !! SESSION_SERVICE = Some (u, blob) ->
      decode blob = Throw err ->
      fst (getSession w) = Ok JNull /\
      fst (getSession w) =
      fst (getSession
             (with_keychain (delete SESSION_SERVICE (keychain w)) w))) /\
  (exists v, fst (getCredentialsFromKeychain w) = Ok v) /\
  (exists v, fst (getSession w) = Ok v) /\
  (forall u blob v,
      keychain w !! CREDENTIALS_SERVICE = Some (u, blob) ->
      decode blob = Ok v -> rejects_at 0 w = false ->
      fst (getCredentialsFromKeychain w) = Ok v) /\
  (forall u blob v,
      keychain w !! SESSION_SERVICE = Some (u, blob) ->
      decode blob = Ok v -> rejects_at 0 w = false ->
      fst (getSession w) = Ok v).
Proof.
  split; [|split; [|split; [|split; [|split]]]].
  - intros u blob err Hslot Hdec.
    rewrite !getCredentialsFromKeychain_eq. cbn [fst]. unfold slot_view.
    cbn [keychain with_keychain]. rewrite lookup_delete_eq, Hslot, Hdec.
    change (rejects_at 0 (with_keychain _ w)) with (rejects_at 0 w).
    destruct (rejects_at 0 w); split; reflexivity.
  - intros u blob err Hslot Hdec.
    rewrite !getSession_eq. cbn [fst]. unfold slot_view.
    cbn [keychain with_keychain]. rewrite lookup_delete_eq, Hslot, Hdec.
    change (rejects_at 0 (with_keychain _ w)) with (rejects_at 0 w).
    destruct (rejects_at 0 w); split; reflexivity.
  - rewrite getCredentialsFromKeychain_eq. eexists. reflexivity.
  - rewrite getSession_eq. eexists. reflexivity.
  - intros u blob v Hslot Hdec Hread.
    rewrite getCredentialsFromKeychain_eq. cbn [fst]. unfold slot_view.
    rewrite Hread, Hslot, Hdec. reflexivity.
  - intros u blob v Hslot Hdec Hread.
    rewrite getSession_eq. cbn [fst]. unfold slot_view.
    rewrite Hread, Hslot, Hdec. reflexivity.
Qed.

Lemma updatedCredentials_throws e p f l ph v :
  (exists err, updatedCredentials (mkCredential e p f l ph) v = Throw err) <->
  scan_throws e v.
Proof.
  unfold updatedCredentials, scan_throws. cbn [email].
  destruct (as_array v) as [existing|err]; cbn [rbind].
  - destruct (findIndex _ existing); cbn [rbind].
    + split; intros [err H]; discriminate H.
    + split; intros _; eexists; reflexivity.
  - split; intros _; eexists; reflexivity.
Qed.

(** C7, as the code has it. The upsert returns a boolean, never throws, and
    the boolean is [false] exactly when the keychain write rejects or the
    scan of the loaded value throws.  A rejected keychain read is absorbed
    by [getCredentialsFromKeychain] (the list is then taken to be empty):
    with it, as on any well-formed slot, the result is [true] unless the
    write rejects. *)
Theorem upsert_false_iff_write_or_scan_fails e p f l ph w :
  exists b w',
    storeCredentialsInKeychain e p f l ph w = (Ok b, w') /\
    (b = false <->
     rejects_at 1 w = true \/
     scan_throws e (slot_view CREDENTIALS_SERVICE (JArr []) w)) /\
    (rejects_at 0 w = true -> b = negb (rejects_at 1 w)).
Proof.
  rewrite storeCredentialsInKeychain_eq. cbv zeta.
  pose proof (updatedCredentials_throws e p f l ph
                (slot_view CREDENTIALS_SERVICE (JArr []) w)) as Hscan.
  assert (Hread : rejects_at 0 w = true ->
            slot_view CREDENTIALS_SERVICE (JArr []) w = JArr [])
    by (unfold slot_view; intros ->; reflexivity).
  destruct (updatedCredentials _ _) as [l'|err] eqn:Eup.
  - assert (Hno : ~ scan_throws e (slot_view CREDENTIALS_SERVICE (JArr []) w))
      by (intros Hs; apply Hscan in Hs as [err Hs]; discriminate Hs).
    destruct (rejects_at 1 w); eexists _, _;
      (split; [reflexivity|]); split; try tauto; try reflexivity.
    split; [discriminate|]. intros [H|H]; [discriminate H | tauto].
  - eexists _, _. split; [reflexivity|]. split.
    + split; [|reflexivity]. intros _. right. apply Hscan. eauto.
    + intros Hr. rewrite (Hread Hr) in Eup. discriminate Eup.
Qed.

End Failures.

(** ** Sessions and logout *)

Lemma services_distinct :
  CREDENTIALS_SERVICE <> SESSION_SERVICE /\
  CREDENTIALS_SERVICE <> KEYCHAIN_SERVICE /\
  SESSION_SERVICE <> KEYCHAIN_SERVICE.
Proof. repeat split; intros E; vm_compute in E; discriminate E. Qed.

Section Sessions.
Context `{P : Platform} {L : PlatformLaws P}.

Lemma createSession_eq e w :
  createSession e w =
  let t := clock w + Z.of_N (hd 0%N (ticks w)) in
  let blob :=
    AES_encrypt (hd 0%N (salts w))
      (JSON_stringify (Session_to_JSON (mkSession (toLowerCase e) t)))
      ENCRYPTION_KEY in
  let w1 := logged (SetGenericPassword SESSION_KEY blob SESSION_SERVICE)
              (with_salts (tail (salts w))
                 (with_time t (tail (ticks w)) w)) in
  if rejects_at 0 w then (Ok false, w1)
  else (Ok true,
        with_keychain
          (<[SESSION_SERVICE := (SESSION_KEY, blob)]> (keychain w)) w1).
Proof.
  unfold createSession, try_catch, bind, Date_now, encryptData,
    Keychain_setGenericPassword, keychain_call, modify, ret.
  cbv zeta.
  change (rejects_at 0 (with_salts _ (with_time _ _ w)))
    with (rejects_at 0 w).
  destruct (rejects_at 0 w); reflexivity.
Qed.

Lemma clearSession_eq w :
  clearSession w =
  let w1 := logged (ResetGenericPassword SESSION_SERVICE) w in
  if rejects_at 0 w then (Ok false, w1)
  else (Ok true, with_keychain (delete SESSION_SERVICE (keychain w)) w1).
Proof.
  unfold clearSession, try_catch, bind, Keychain_resetGenericPassword,
    keychain_call, modify, ret.
  destruct (rejects_at 0 w); reflexivity.
Qed.

Lemma clearUserDataFromKeychain_eq w :
  clearUserDataFromKeychain w =
  let w1 := logged (ResetGenericPassword KEYCHAIN_SERVICE) w in
  if rejects_at 0 w then (Ok false, w1)
  else (Ok true, with_keychain (delete KEYCHAIN_SERVICE (keychain w)) w1).
Proof.
  unfold clearUserDataFromKeychain, try_catch, bind,
    Keychain_resetGenericPassword, keychain_call, modify, ret.
  destruct (rejects_at 0 w); reflexivity.
Qed.

Lemma handleLogout_eq ui w :
  handleLogout (ui, w) =
  (Ok tt,
   (navigate "Login" (clearUserData ui),
    snd (clearUserDataFromKeychain (snd (clearSession w))))).
Proof.
  unfold handleLogout, try_catch, bind, ui_do, modify, on_snd.
  cbn [fst snd].
  rewrite clearSession_eq. cbv zeta.
  destruct (rejects_at 0 w); cbn [fst snd];
    rewrite clearUserDataFromKeychain_eq; cbv zeta;
    destruct (rejects_at 0 _); reflexivity.
Qed.

Lemma create_then_current e w w1 :
  createSession e w = (Ok true, w1) -> rejects_at 0 w1 = false ->
  exists t,
    fst (getSession w1) =
    Ok (Session_to_JSON (mkSession (toLowerCase e) t)) /\
    clock w <= t.
Proof.
  rewrite createSession_eq. cbv zeta.
  destruct (rejects_at 0 w); [discriminate|].
  intros [= <-] Hread. eexists. split.
  - rewrite getSession_eq. cbn [fst]. unfold slot_view.
    rewrite Hread. cbn [keychain with_keychain].
    rewrite lookup_insert_eq, decode_encrypt. reflexivity.
  - lia.
Qed.

(** C8. After a [createSession] that returned [true], and provided the
    keychain read resolves, [getSession] returns the session with the
    lowercased email and a timestamp not earlier than the clock at the
    call.  After a [clearSession] that returned [true], [getSession]
    returns [null]; and from there a successful [createSession] followed by
    [getSession] yields the new session again. *)
Theorem session_lifecycle :
  (forall e w w1,
      createSession e w = (Ok true, w1) -> rejects_at 0 w1 = false ->
      exists t,
        fst (getSession w1) =
        Ok (Session_to_JSON (mkSession (toLowerCase e) t)) /\
        clock w <= t) /\
  (forall w w2,
      clearSession w = (Ok true, w2) ->
      fst (getSession w2) = Ok JNull /\
      forall e w3,
        createSession e w2 = (Ok true, w3) -> rejects_at 0 w3 = false ->
        exists t,
          fst (getSession w3) =
          Ok (Session_to_JSON (mkSession (toLowerCase e) t)) /\
          clock w2 <= t).
Proof.
  split; [exact create_then_current|].
  intros w w2. rewrite clearSession_eq. cbv zeta.
  destruct (rejects_at 0 w); [discriminate|]. intros [= <-].
  split; [|intros e w3; apply create_then_current].
  rewrite getSession_eq. cbn [fst]. unfold slot_view.
  cbn [keychain with_keychain logged with_calls with_faults].
  rewrite lookup_delete_eq. destruct (rejects_at 0 _); reflexivity.
Qed.

End Sessions.

Section Logout.
Context `{P : Platform}.

Lemma logout_keychain ui w :
  keychain (snd (snd (handleLogout (ui, w)))) =
  (if rejects_at 1 w then fun k => k else delete KEYCHAIN_SERVICE)
    ((if rejects_at 0 w then fun k => k else delete SESSION_SERVICE)
       (keychain w)).
Proof.
  rewrite handleLogout_eq. cbn [snd].
  rewrite clearSession_eq. cbv zeta.
  destruct (rejects_at 0 w); cbn [snd];
    rewrite clearUserDataFromKeychain_eq; cbv zeta;
    rewrite ?rejects_at_logged;
    change (rejects_at 0 (with_keychain ?k ?x)) with (rejects_at 0 x);
    rewrite ?rejects_at_logged;
    destruct (rejects_at 1 w); reflexivity.
Qed.

Lemma logout_keeps_slot ui w :
  keychain (snd (snd (handleLogout (ui, w)))) !! CREDENTIALS_SERVICE =
  keychain w !! CREDENTIALS_SERVICE.
Proof.
  rewrite logout_keychain.
  destruct services_distinct as (Hs & Hk & _).
  destruct (rejects_at 1 w), (rejects_at 0 w);
    rewrite ?lookup_delete_ne by (intros E; symmetry in E; contradiction);
    reflexivity.
Qed.

Lemma list_depends_on_slot w w' :
  keychain w' !! CREDENTIALS_SERVICE = keychain w !! CREDENTIALS_SERVICE ->
  faults w' = faults w ->
  fst (getCredentialsFromKeychain w') = fst (getCredentialsFromKeychain w).
Proof.
  intros Hk Hf. rewrite !getCredentialsFromKeychain_eq. cbn [fst].
  unfold slot_view, rejects_at. rewrite Hk, Hf. reflexivity.
Qed.

(** C9. Logging out leaves the credentials slot as it was, whatever the
    keychain calls of the logout do: the slot holds the same blob, and under
    the same behaviour of the keychain [getCredentialsFromKeychain] returns
    the same list after the logout as before.  [clearSession] itself
    changes no slot but the session's. *)
Theorem logout_keeps_credentials ui w :
  keychain (snd (snd (handleLogout (ui, w)))) !! CREDENTIALS_SERVICE =
  keychain w !! CREDENTIALS_SERVICE /\
  (forall fs,
      fst (getCredentialsFromKeychain
             (with_faults fs (snd (snd (handleLogout (ui, w)))))) =
      fst (getCredentialsFromKeychain (with_faults fs w))) /\
  (forall service,
      service <> SESSION_SERVICE ->
      keychain (snd (clearSession w)) !! service = keychain w !! service).
Proof.
  split; [apply logout_keeps_slot|]. split.
  - intros fs. apply list_depends_on_slot; [|reflexivity].
    cbn [keychain with_faults]. apply logout_keeps_slot.
  - intros service Hne. rewrite clearSession_eq. cbv zeta.
    destruct (rejects_at 0 w); cbn [snd keychain with_keychain];
      [reflexivity|].
    apply lookup_delete_ne. congruence.
Qed.

(** C10. Logging out also resets the user-data slot, the one under service
    [AccountSetup]: the two keychain calls of a logout are the reset of the
    session service and the reset of that service.  When the second
    resolves, the slot is empty afterwards and [getUserDataFromKeychain]
    returns [null], while the credentials slot is as before. *)
Theorem logout_clears_user_data ui w :
  rejects_at 1 w = false ->
  calls (snd (snd (handleLogout (ui, w)))) =
  calls w ++ [ResetGenericPassword SESSION_SERVICE;
              ResetGenericPassword KEYCHAIN_SERVICE] /\
  keychain (snd (snd (handleLogout (ui, w)))) !! KEYCHAIN_SERVICE = None /\
  fst (getUserDataFromKeychain (snd (snd (handleLogout (ui, w))))) =
  Ok JNull /\
  keychain (snd (snd (handleLogout (ui, w)))) !! CREDENTIALS_SERVICE =
  keychain w !! CREDENTIALS_SERVICE.
Proof.
  intros Hreset.
  assert (Hslot : keychain (snd (snd (handleLogout (ui, w))))
                    !! KEYCHAIN_SERVICE = None)
    by (rewrite logout_keychain, Hreset; apply lookup_delete_eq).
  split; [|split; [exact Hslot|split; [|apply logout_keeps_slot]]].
  - rewrite handleLogout_eq. cbn [snd].
    rewrite clearSession_eq. cbv zeta.
    destruct (rejects_at 0 w); cbn [snd];
      rewrite clearUserDataFromKeychain_eq; cbv zeta;
      destruct (rejects_at 0 _); cbn; rewrite <- app_assoc; reflexivity.
  - rewrite getUserDataFromKeychain_eq. cbn [fst]. unfold slot_view.
    rewrite Hslot. destruct (rejects_at 0 _); reflexivity.
Qed.

End Logout.

(** ** The login lockout counter *)

Section LockoutCounter.
Context `{P : Platform}.

Lemma validateCredentials_logs e p w :
  calls (snd (validateCredentials e p w)) =
  calls w ++ [GetGenericPassword CREDENTIALS_SERVICE].
Proof.
  unfold validateCredentials, try_catch, bind at 1.
  rewrite getCredentialsFromKeychain_eq. unfold lift, bind at 1.
  destruct (as_array _) as [l|err]; [|reflexivity].
  cbn [rbind]. unfold bind. destruct (find _ l); reflexivity.
Qed.

Lemma onSubmit_locked ui w :
  isLockedOut ui = true ->
  onSubmit (ui, w) =
  (Ok tt, (setLoginError LOCKED_OUT_MESSAGE (setLoginError "" ui), w)).
Proof.
  intros Hlocked.
  unfold onSubmit, try_catch, bind, ui_do, modify, gets.
  cbn [fst snd isLockedOut setLoginError]. rewrite Hlocked. reflexivity.
Qed.

Lemma onSubmit_failed ui w :
  isLockedOut ui = false -> validation (ui, w) = Ok false ->
  exists ui',
    onSubmit (ui, w) =
    (Ok tt, (ui', snd (validateCredentials (values_email ui)
                         (values_password ui) w))) /\
    failedAttempts ui' = failedAttempts ui + 1 /\
    isLockedOut ui' = (MAX_FAILED_ATTEMPTS <=? failedAttempts ui + 1).
Proof.
  unfold validation. cbn [fst snd]. intros Hopen Hfail.
  unfold onSubmit, try_catch, bind, ui_do, modify, gets, on_snd,
    MAX_FAILED_ATTEMPTS.
  cbn -[Z.leb Z.add Z.sub number_to_string String.append
        validateCredentials getCredentialByEmail createSession].
  rewrite Hopen.
  cbn -[Z.leb Z.add Z.sub number_to_string String.append
        validateCredentials getCredentialByEmail createSession].
  destruct (validateCredentials (values_email ui) (values_password ui) w)
    as [r w1]. cbn [fst snd] in *. subst r.
  cbn -[Z.leb Z.add Z.sub number_to_string String.append].
  destruct (5 <=? failedAttempts ui + 1) eqn:Emax;
    eexists; (split; [reflexivity|]); (split; [reflexivity|]);
    first [reflexivity | exact Hopen].
Qed.

Lemma submits_failed n s :
  lockout (fst s) = Active 0 ->
  (forall k, (k < n)%nat -> validation (submits k s) = Ok false) ->
  (n <= 5)%nat ->
  failedAttempts (fst (submits n s)) = Z.of_nat n /\
  isLockedOut (fst (submits n s)) = (MAX_FAILED_ATTEMPTS <=? Z.of_nat n).
Proof.
  intros Hstart. induction n as [|n IH]; intros Hfail Hn.
  - unfold lockout in Hstart. cbn [submits].
    destruct (isLockedOut (fst s)); [discriminate|].
    injection Hstart as ->. split; reflexivity.
  - destruct IH as [IHa IHl]; [intros k Hk; apply Hfail; lia | lia |].
    cbn [submits]. destruct (submits n s) as [ui w] eqn:Es.
    cbn [fst] in IHa, IHl.
    assert (Hopen : isLockedOut ui = false).
    { rewrite IHl. unfold MAX_FAILED_ATTEMPTS. lia. }
    destruct (onSubmit_failed ui w Hopen) as (ui' & -> & Ha & Hl).
    { rewrite <- Es. apply Hfail. lia. }
    cbn [fst snd]. rewrite Ha, Hl, IHa.
    replace (Z.of_nat n + 1) with (Z.of_nat (S n)) by lia.
    split; reflexivity.
Qed.

(** C5. With [MAX_FAILED_ATTEMPTS = 5] and starting from [Active 0]: while
    the validations fail, the first four submits leave the counter at
    [Active 1] to [Active 4] and the fifth locks it out.  A submit in
    [LockedOut] is rejected with the lockout message, stays locked out and
    leaves the world untouched, whereas a validation always issues a
    keychain call, so none was run.  Any change of the email field brings
    the counter back to [Active 0]. *)
Theorem lockout_after_five_failures :
  MAX_FAILED_ATTEMPTS = 5 /\
  (forall ui, lockout (login_mount ui) = Active 0) /\
  (forall s,
      lockout (fst s) = Active 0 ->
      (forall k, (k < 5)%nat -> validation (submits k s) = Ok false) ->
      (forall k, (k < 5)%nat ->
                 lockout (fst (submits k s)) = Active (Z.of_nat k)) /\
      lockout (fst (submits 5 s)) = LockedOut) /\
  (forall ui w,
      lockout ui = LockedOut ->
      exists ui',
        onSubmit (ui, w) = (Ok tt, (ui', w)) /\
        lockout ui' = LockedOut /\
        loginError ui' = LOCKED_OUT_MESSAGE /\
        forall e p, calls (snd (validateCredentials e p w)) <> calls w) /\
  (forall ui text,
      text <> values_email ui ->
      lockout (handleChange_email text ui) = Active 0).
Proof.
  split; [reflexivity|]. split; [reflexivity|]. split; [|split].
  - intros s Hstart Hfail. split.
    + intros k Hk.
      destruct (submits_failed k s Hstart) as [Ha Hl];
        [intros j Hj; apply Hfail; lia | lia |].
      unfold lockout. rewrite Hl, Ha.
      destruct (Z.leb_spec MAX_FAILED_ATTEMPTS (Z.of_nat k)) as [Hle|_];
        [unfold MAX_FAILED_ATTEMPTS in Hle; lia | reflexivity].
    + destruct (submits_failed 5 s Hstart Hfail) as [_ Hl]; [lia|].
      unfold lockout. rewrite Hl. reflexivity.
  - intros ui w Hlocked. unfold lockout in Hlocked.
    destruct (isLockedOut ui) eqn:El; [|discriminate].
    eexists. split; [apply onSubmit_locked, El|].
    unfold lockout. cbn [isLockedOut setLoginError loginError]. rewrite El.
    split; [reflexivity|]. split; [reflexivity|].
    intros e p. rewrite validateCredentials_logs. intros E.
    apply (f_equal length) in E. rewrite length_app in E. cbn in E. lia.
  - intros ui text Hne. unfold handleChange_email.
    destruct (String.eqb_spec (values_email ui) text) as [E|_];
      [congruence | reflexivity].
Qed.

End LockoutCounter.

(** * Further properties of the service and of its callers *)

(** ** The three slots *)

Section Slots.
Context `{P : Platform} {L : PlatformLaws P}.

Lemma storeUserDataInKeychain_eq u w :
  storeUserDataInKeychain u w =
  let blob := AES_encrypt (hd 0%N (salts w))
                (JSON_stringify (UserData_to_JSON u)) ENCRYPTION_KEY in
  let w1 := logged (SetGenericPassword USER_DATA_KEY blob KEYCHAIN_SERVICE)
              (with_salts (tail (salts w)) w) in
  if rejects_at 0 w then (Ok false, w1)
  else (Ok true,
        with_keychain
          (<[KEYCHAIN_SERVICE := (USER_DATA_KEY, blob)]> (keychain w)) w1).
Proof.
  unfold storeUserDataInKeychain, try_catch, bind, encryptData,
    Keychain_setGenericPassword, keychain_call, modify, ret.
  cbv zeta.
  change (rejects_at 0 (with_salts _ w)) with (rejects_at 0 w).
  destruct (rejects_at 0 w); reflexivity.
Qed.

(** X1. The user-data mirror reads back what was written: after a
    [storeUserDataInKeychain] that returned [true], and when the keychain
    read resolves, [getUserDataFromKeychain] returns the four fields that
    were stored. *)
Theorem user_data_round_trip u w w' :
  storeUserDataInKeychain u w = (Ok true, w') ->
  rejects_at 0 w' = false ->
  fst (getUserDataFromKeychain w') = Ok (UserData_to_JSON u).
Proof.
  rewrite storeUserDataInKeychain_eq. cbv zeta.
  destruct (rejects_at 0 w); [discriminate|].
  intros [= <-] Hread.
  rewrite getUserDataFromKeychain_eq. cbn [fst]. unfold slot_view.
  rewrite Hread. cbn [keychain with_keychain].
  rewrite lookup_insert_eq, decode_encrypt. reflexivity.
Qed.

Lemma getCredentialByEmail_any_string e w :
  getCredentialByEmail_any (Some (JStr e)) w = getCredentialByEmail e w.
Proof. reflexivity. Qed.

Lemma getCredentialByEmail_any_other x w :
  call_toLowerCase x = Throw "TypeError" ->
  getCredentialByEmail_any x w =
  (Ok JNull, logged (GetGenericPassword CREDENTIALS_SERVICE) w).
Proof.
  intros Hx. unfold getCredentialByEmail_any, try_catch, bind at 1.
  rewrite getCredentialsFromKeychain_eq. unfold bind, lift, ret.
  rewrite Hx. reflexivity.
Qed.

Lemma call_toLowerCase_cases x :
  (exists e, x = Some (JStr e)) \/ call_toLowerCase x = Throw "TypeError".
Proof. destruct x as [[]|]; eauto. Qed.

(** X2. Reading never writes: on every world, whatever the slots hold and
    whether or not a call rejects, the five readers of the service leave the
    keychain exactly as it was. *)
Theorem readers_leave_keychain w :
  keychain (snd (getCredentialsFromKeychain w)) = keychain w /\
  keychain (snd (getSession w)) = keychain w /\
  keychain (snd (getUserDataFromKeychain w)) = keychain w /\
  (forall e p, keychain (snd (validateCredentials e p w)) = keychain w) /\
  (forall e, keychain (snd (getCredentialByEmail e w)) = keychain w).
Proof.
  rewrite getCredentialsFromKeychain_eq, getSession_eq,
    getUserDataFromKeychain_eq.
  repeat split.
  - intros e p. rewrite validateCredentials_eq. reflexivity.
  - intros e. rewrite getCredentialByEmail_eq. reflexivity.
Qed.

Lemma createSession_other_slots e w service :
  service <> SESSION_SERVICE ->
  keychain (snd (createSession e w)) !! service = keychain w !! service.
Proof.
  intros Hne. rewrite createSession_eq. cbv zeta.
  destruct (rejects_at 0 w); [reflexivity|].
  cbn [snd keychain with_keychain]. apply lookup_insert_ne. congruence.
Qed.

(** X3. Each writer changes its own slot only: the upsert leaves every
    service but [AccountSetup_credentials] as it was, [createSession] every
    service but [AccountSetup_session], and the store and the reset of the
    user data every service but [AccountSetup]. *)
Theorem writers_touch_own_slot w service :
  (service <> CREDENTIALS_SERVICE ->
   forall e p f l ph,
     keychain (snd (storeCredentialsInKeychain e p f l ph w)) !! service =
     keychain w !! service) /\
  (service <> SESSION_SERVICE ->
   forall e, keychain (snd (createSession e w)) !! service =
             keychain w !! service) /\
  (service <> KEYCHAIN_SERVICE ->
   (forall u, keychain (snd (storeUserDataInKeychain u w)) !! service =
              keychain w !! service) /\
   keychain (snd (clearUserDataFromKeychain w)) !! service =
   keychain w !! service).
Proof.
  split; [|split].
  - intros Hne e p f l ph. rewrite storeCredentialsInKeychain_eq. cbv zeta.
    destruct (updatedCredentials _ _); [|reflexivity].
    destruct (rejects_at 1 w); [reflexivity|].
    cbn [snd keychain with_keychain]. apply lookup_insert_ne. congruence.
  - intros Hne e. apply createSession_other_slots, Hne.
  - intros Hne. split.
    + intros u. rewrite storeUserDataInKeychain_eq. cbv zeta.
      destruct (rejects_at 0 w); [reflexivity|].
      cbn [snd keychain with_keychain]. apply lookup_insert_ne. congruence.
    + rewrite clearUserDataFromKeychain_eq. cbv zeta.
      destruct (rejects_at 0 w); [reflexivity|].
      cbn [snd keychain with_keychain]. apply lookup_delete_ne. congruence.
Qed.

(** X4. A writer that reports failure has written nothing: whenever the
    upsert, [createSession], [clearSession], [storeUserDataInKeychain] or
    [clearUserDataFromKeychain] returns [false], the keychain is exactly as
    before the call. *)
Theorem failed_writer_leaves_keychain w w' :
  (forall e p f l ph,
      storeCredentialsInKeychain e p f l ph w = (Ok false, w') ->
      keychain w' = keychain w) /\
  (forall e, createSession e w = (Ok false, w') -> keychain w' = keychain w) /\
  (clearSession w = (Ok false, w') -> keychain w' = keychain w) /\
  (forall u, storeUserDataInKeychain u w = (Ok false, w') ->
             keychain w' = keychain w) /\
  (clearUserDataFromKeychain w = (Ok false, w') -> keychain w' = keychain w).
Proof.
  repeat split.
  - intros e p f l ph. rewrite storeCredentialsInKeychain_eq. cbv zeta.
    destruct (updatedCredentials _ _); [|intros [= <-]; reflexivity].
    destruct (rejects_at 1 w); [intros [= <-]; reflexivity | discriminate].
  - intros e. rewrite createSession_eq. cbv zeta.
    destruct (rejects_at 0 w); [intros [= <-]; reflexivity | discriminate].
  - rewrite clearSession_eq. cbv zeta.
    destruct (rejects_at 0 w); [intros [= <-]; reflexivity | discriminate].
  - intros u. rewrite storeUserDataInKeychain_eq. cbv zeta.
    destruct (rejects_at 0 w); [intros [= <-]; reflexivity | discriminate].
  - rewrite clearUserDataFromKeychain_eq. cbv zeta.
    destruct (rejects_at 0 w); [intros [= <-]; reflexivity | discriminate].
Qed.

End Slots.

(** ** Lookup, validation and upsert together *)

Section Lookup.
Context `{P : Platform} {L : PlatformLaws P}.

Lemma find_same_email_entries e l :
  find (same_email e) (map Credential_to_JSON l) =
  Ok (option_map Credential_to_JSON (head (entries_for e l))).
Proof.
  induction l as [|c l IH]; [reflexivity|].
  cbn [map find]. rewrite same_email_entry, entries_for_cons. cbn [rbind].
  destruct (String.eqb_spec (toLowerCase (email c)) (toLowerCase e));
    destruct (decide _); try contradiction; [reflexivity | exact IH].
Qed.

Lemma getCredentialByEmail_stored w l e :
  stored_credentials w l ->
  fst (getCredentialByEmail e w) =
  Ok match head (entries_for e (if rejects_at 0 w then [] else l)) with
     | Some c => Credential_to_JSON c
     | None => JNull
     end.
Proof.
  intros Hl. rewrite getCredentialByEmail_eq. cbn [fst].
  rewrite (slot_view_stored w l Hl). cbn [as_array rbind].
  rewrite find_same_email_entries.
  destruct (head (entries_for e _)); reflexivity.
Qed.

(** X5. On a stored list, when the keychain read resolves,
    [getCredentialByEmail] returns the first entry whose lowercased email is
    that of the argument, password included, and [null] when there is none
    (in particular on an empty store). *)
Theorem lookup_first_entry_or_null w l e :
  stored_credentials w l -> rejects_at 0 w = false ->
  fst (getCredentialByEmail e w) =
  Ok match head (entries_for e l) with
     | Some c => Credential_to_JSON c
     | None => JNull
     end.
Proof.
  intros Hl Hr. rewrite (getCredentialByEmail_stored w l e Hl), Hr.
  reflexivity.
Qed.

Lemma upsert_list_absent c l :
  entries_for (email c) l = [] -> upsert_list c l = l ++ [normalized c].
Proof.
  induction l as [|x r IH]; [reflexivity|].
  rewrite entries_for_cons. cbn [upsert_list].
  destruct (decide _) as [Hx|Hx]; [discriminate|].
  destruct (String.eqb_spec (toLowerCase (email x)) (toLowerCase (email c)));
    [contradiction|].
  intros Hr. rewrite (IH Hr). reflexivity.
Qed.

Lemma upsert_list_present c l :
  entries_for (email c) l <> [] ->
  exists pre x post,
    l = pre ++ x :: post /\
    toLowerCase (email x) = toLowerCase (email c) /\
    entries_for (email c) pre = [] /\
    upsert_list c l = pre ++ normalized c :: post.
Proof.
  induction l as [|x r IH]; [intros Hne; contradiction|].
  rewrite entries_for_cons. cbn [upsert_list].
  destruct (String.eqb_spec (toLowerCase (email x)) (toLowerCase (email c)))
    as [Heq|Hne].
  - intros _. exists [], x, r. repeat split; assumption.
  - destruct (decide _); [contradiction|]. intros Hr.
    destruct (IH Hr) as (pre & y & post & -> & Hy & Hpre & Hup).
    exists (x :: pre), y, post. rewrite Hup.
    repeat split; try assumption.
    rewrite entries_for_cons. destruct (decide _); [contradiction | exact Hpre].
Qed.

Lemma upsert_list_others c l e :
  toLowerCase e <> toLowerCase (email c) ->
  entries_for e (upsert_list c l) = entries_for e l.
Proof.
  intros Hne. induction l as [|x r IH]; cbn [upsert_list].
  - rewrite entries_for_cons, normalized_key.
    destruct (decide _); [congruence | reflexivity].
  - destruct (String.eqb_spec (toLowerCase (email x)) (toLowerCase (email c)))
      as [Heq|Hx].
    + rewrite !entries_for_cons, normalized_key, Heq.
      destruct (decide _); [congruence | reflexivity].
    + rewrite !entries_for_cons, IH. reflexivity.
Qed.

(** X6. An upsert whose read and write both resolve changes the entry of its
    own email and nothing else: when the stored list has no entry for the
    email the new entry is appended at the end; otherwise it takes the place
    of the first entry with that email, the entries before and after it
    staying where they were.  The entries of every other email are the same
    after as before. *)
Theorem upsert_keeps_other_entries c w l :
  stored_credentials w l ->
  rejects_at 0 w = false -> rejects_at 1 w = false ->
  exists w' l',
    upsert c w = (Ok true, w') /\ stored_credentials w' l' /\
    (entries_for (email c) l = [] -> l' = l ++ [normalized c]) /\
    (entries_for (email c) l <> [] ->
     exists pre x post,
       l = pre ++ x :: post /\
       toLowerCase (email x) = toLowerCase (email c) /\
       entries_for (email c) pre = [] /\
       l' = pre ++ normalized c :: post) /\
    (forall e, toLowerCase e <> toLowerCase (email c) ->
               entries_for e l' = entries_for e l).
Proof.
  intros Hl Hread Hwrite.
  destruct (upsert_stored c w l Hl) as (w' & Hup & Hl').
  rewrite Hread, Hwrite in *. cbn [negb] in Hup.
  exists w', (upsert_list c l). split; [exact Hup|]. split; [exact Hl'|].
  split; [apply upsert_list_absent|]. split; [apply upsert_list_present|].
  intros e. apply upsert_list_others.
Qed.

Lemma same_email_false_credentials e e' p x :
  toLowerCase e' = toLowerCase e ->
  same_email e x = Ok false -> same_credentials e' p x = Ok false.
Proof.
  unfold same_email, same_credentials. intros ->.
  destruct (cred_email_lower x) as [ex|err]; cbn [rbind]; [|discriminate].
  intros [= ->]. reflexivity.
Qed.

Lemma find_after_replace (p q : JSON -> result bool) new l l' :
  (forall x, p x = Ok false -> q x = Ok false) ->
  q new = Ok true -> replace_or_append p new l = Ok l' ->
  find q l' = Ok (Some new).
Proof.
  intros Hpq Hnew. revert l'.
  induction l as [|x r IH]; intros l'; cbn [replace_or_append].
  - intros [= <-]. cbn [find]. rewrite Hnew. reflexivity.
  - destruct (p x) as [[]|err] eqn:Ex; cbn [rbind]; [| |discriminate].
    + intros [= <-]. cbn [find]. rewrite Hnew. reflexivity.
    + destruct (replace_or_append p new r) as [r'|err];
        cbn [rbind]; [|discriminate].
      intros [= <-]. cbn [find]. rewrite (Hpq x Ex). cbn [rbind].
      apply IH. reflexivity.
Qed.

(** X7. What was just signed up can log in: after an upsert that returned
    [true], and when the keychain read resolves, [validateCredentials]
    returns [true] for the password given and for the email given, in
    whatever letter case it is typed.  This holds whatever the slot held
    before. *)
Theorem upsert_then_validate e p f l ph w w' e' :
  storeCredentialsInKeychain e p f l ph w = (Ok true, w') ->
  rejects_at 0 w' = false ->
  toLowerCase e' = toLowerCase e ->
  fst (validateCredentials e' p w') = Ok true.
Proof.
  rewrite storeCredentialsInKeychain_eq. cbv zeta.
  destruct (updatedCredentials _ _) as [l'|err] eqn:Eup; [|discriminate].
  destruct (rejects_at 1 w); [discriminate|].
  intros [= <-] Hread Hcase.
  rewrite validateCredentials_eq. cbn [fst].
  unfold slot_view. rewrite Hread. cbn [keychain with_keychain].
  rewrite lookup_insert_eq, decode_encrypt. cbn [as_array rbind].
  destruct (updatedCredentials_ok _ _ _ Eup) as (existing & _ & Hrep).
  cbn [email] in Hrep.
  assert (Hnew : same_credentials e' p
                   (Credential_to_JSON
                      (normalized (mkCredential e p f l ph))) = Ok true).
  2: { rewrite (find_after_replace _ (same_credentials e' p) _ _ _
                  (fun x => same_email_false_credentials e e' p x Hcase)
                  Hnew Hrep).
       reflexivity. }
  { rewrite same_credentials_entry. unfold matches.
    rewrite normalized_key. cbn [email password normalized].
    rewrite Hcase, !String.eqb_refl. reflexivity. }
Qed.

Lemma same_credentials_email e p x b :
  same_credentials e p x = Ok b ->
  exists b', same_email e x = Ok b' /\ (b = true -> b' = true).
Proof.
  unfold same_email, same_credentials.
  destruct (cred_email_lower x) as [e'|err]; cbn [rbind]; [|discriminate].
  destruct (String.eqb e' (toLowerCase e)).
  - intros _. eexists. split; [reflexivity | reflexivity].
  - intros [= <-]. eexists. split; [reflexivity | discriminate].
Qed.

Lemma find_credentials_email e p l v :
  find (same_credentials e p) l = Ok (Some v) ->
  exists u, find (same_email e) l = Ok (Some u) /\ same_email e u = Ok true.
Proof.
  induction l as [|x r IH]; cbn [find]; [discriminate|].
  destruct (same_credentials e p x) as [b|err] eqn:Ex; cbn [rbind];
    [|discriminate].
  destruct (same_credentials_email e p x b Ex) as (b' & Hp & Hb).
  rewrite Hp. cbn [rbind]. destruct b.
  - intros _. rewrite (Hb eq_refl) in *. exists x. split; [reflexivity | exact Hp].
  - destruct b'; [intros _; exists x; split; [reflexivity | exact Hp]|].
    exact IH.
Qed.

Lemma same_email_true e u :
  same_email e u = Ok true ->
  truthy u = true /\ cred_email_lower u = Ok (toLowerCase e).
Proof.
  unfold same_email. destruct (cred_email_lower u) as [e'|err] eqn:Eu;
    cbn [rbind]; [|discriminate].
  intros [= He]. apply String.eqb_eq in He. subst e'.
  split; [|reflexivity].
  destruct u; try reflexivity; cbn in Eu; discriminate Eu.
Qed.

(** X8. A validation that succeeds is followed by a lookup that finds: if
    [validateCredentials] returned [true] and the next keychain read
    resolves, [getCredentialByEmail] on the same email returns an object (not
    [null]) whose email lowercases to that of the argument.  This holds
    whatever the slot holds, so the login never reports missing user data
    after a successful validation unless the keychain fails in between. *)
Theorem validate_then_find e p w :
  fst (validateCredentials e p w) = Ok true ->
  rejects_at 1 w = false ->
  exists v,
    fst (getCredentialByEmail e (snd (validateCredentials e p w))) = Ok v /\
    truthy v = true /\
    cred_email_lower v = Ok (toLowerCase e).
Proof.
  rewrite validateCredentials_eq. cbn [fst snd]. intros Hv Hnext.
  rewrite getCredentialByEmail_eq. cbn [fst].
  assert (Hr : rejects_at 0 w = false).
  { destruct (rejects_at 0 w) eqn:E; [|reflexivity].
    unfold slot_view in Hv. rewrite E in Hv. discriminate Hv. }
  assert (Hview : slot_view CREDENTIALS_SERVICE (JArr [])
                    (logged (GetGenericPassword CREDENTIALS_SERVICE) w) =
                  slot_view CREDENTIALS_SERVICE (JArr []) w).
  { unfold slot_view. rewrite rejects_at_logged, Hnext, Hr. reflexivity. }
  rewrite Hview.
  destruct (as_array _) as [l|err]; cbn [rbind] in *; [|discriminate].
  destruct (find (same_credentials e p) l) as [[v0|]|err] eqn:Ef;
    try discriminate.
  destruct (find_credentials_email e p l v0 Ef) as (u & Hu & Hpu).
  destruct (same_email_true e u Hpu) as [Htruthy Hemail].
  exists u. rewrite Hu, Htruthy. injection Hv as Hv.
  repeat split; assumption.
Qed.

End Lookup.

(** ** The login screen beyond the lockout *)

Section Login.
Context `{P : Platform} {L : PlatformLaws P}.

Lemma validation_total s : exists b, validation s = Ok b.
Proof.
  unfold validation. rewrite validateCredentials_eq. eexists. reflexivity.
Qed.

Lemma onSubmit_validated ui w :
  isLockedOut ui = false -> validation (ui, w) = Ok true ->
  exists ui' w',
    onSubmit (ui, w) = (Ok tt, (ui', w')) /\
    failedAttempts ui' = 0 /\ isLockedOut ui' = false /\
    values_email ui' = values_email ui.
Proof.
  unfold validation. cbn [fst snd]. intros Hopen Hvalid.
  unfold onSubmit, try_catch, bind, ui_do, modify, gets, on_snd, lift,
    MAX_FAILED_ATTEMPTS.
  cbn -[Z.leb Z.add Z.sub number_to_string String.append
        validateCredentials getCredentialByEmail createSession get_prop].
  rewrite Hopen.
  cbn -[Z.leb Z.add Z.sub number_to_string String.append
        validateCredentials getCredentialByEmail createSession get_prop].
  destruct (validateCredentials (values_email ui) (values_password ui) w)
    as [r w1]. cbn [fst snd] in *. subst r.
  cbn -[getCredentialByEmail createSession get_prop].
  rewrite getCredentialByEmail_eq.
  set (v := match rbind _ _ with Ok (Some v) => _ | _ => JNull end).
  cbn -[createSession get_prop].
  destruct (truthy v) eqn:Hv; cbn -[createSession get_prop];
    [|eexists _, _; split; [reflexivity|]; repeat split].
  rewrite createSession_eq. cbv zeta.
  destruct (rejects_at 0 _); cbn -[get_prop];
    [eexists _, _; split; [reflexivity|]; repeat split|].
  destruct v; try discriminate Hv; cbn;
    eexists _, _; (split; [reflexivity|]); repeat split.
Qed.

Lemma onSubmit_cases ui w :
  exists ui' w',
    onSubmit (ui, w) = (Ok tt, (ui', w')) /\
    values_email ui' = values_email ui /\
    ((isLockedOut ui = true /\ isLockedOut ui' = true /\
      failedAttempts ui' = failedAttempts ui /\ w' = w) \/
     (isLockedOut ui = false /\ validation (ui, w) = Ok false /\
      failedAttempts ui' = failedAttempts ui + 1 /\
      isLockedOut ui' = (MAX_FAILED_ATTEMPTS <=? failedAttempts ui + 1)) \/
     (isLockedOut ui = false /\ validation (ui, w) = Ok true /\
      failedAttempts ui' = 0 /\ isLockedOut ui' = false)).
Proof.
  destruct (isLockedOut ui) eqn:El.
  - eexists _, _. split; [apply onSubmit_locked, El|].
    split; [reflexivity|]. left. cbn. auto.
  - destruct (validation_total (ui, w)) as [[] Hv].
    + destruct (onSubmit_validated ui w El Hv) as (ui' & w' & Hrun & Ha & Hl & Hm).
      exists ui', w'. split; [exact Hrun|]. split; [exact Hm|].
      right. right. auto.
    + destruct (onSubmit_failed ui w El Hv) as (ui' & Hrun & Ha & Hl).
      eexists ui', _. split; [exact Hrun|]. split; [|right; left; auto].
      revert Hrun. unfold onSubmit, try_catch, bind, ui_do, modify, gets,
        on_snd, MAX_FAILED_ATTEMPTS.
      cbn -[Z.leb Z.add Z.sub number_to_string String.append
            validateCredentials getCredentialByEmail createSession].
      rewrite El.
      cbn -[Z.leb Z.add Z.sub number_to_string String.append
            validateCredentials getCredentialByEmail createSession].
      unfold validation in Hv. cbn [fst snd] in Hv.
      destruct (validateCredentials (values_email ui) (values_password ui) w)
        as [r w1]. cbn [fst snd] in *. subst r.
      cbn -[Z.leb Z.add Z.sub number_to_string String.append].
      destruct (5 <=? failedAttempts ui + 1); intros [= <-]; reflexivity.
Qed.

Lemma onSubmit_run ui w w1 v w2 w3 :
  isLockedOut ui = false ->
  validateCredentials (values_email ui) (values_password ui) w =
  (Ok true, w1) ->
  getCredentialByEmail (values_email ui) w1 = (Ok v, w2) ->
  truthy v = true ->
  createSession (values_email ui) w2 = (Ok true, w3) ->
  onSubmit (ui, w) =
  (Ok tt,
   (navigate "Home"
      (setUserData
         [("email", field "email" v); ("firstName", field "firstName" v);
          ("lastName", field "lastName" v);
          ("phoneNumber", field "phoneNumber" v)]
         (setIsLockedOut false (setFailedAttempts 0 (setLoginError "" ui)))),
    w3)).
Proof.
  intros Hopen Hvalid Hfind Hv Hsession.
  unfold onSubmit, try_catch, bind, ui_do, modify, gets, on_snd, lift,
    MAX_FAILED_ATTEMPTS.
  cbn -[Z.leb Z.add Z.sub number_to_string String.append
        validateCredentials getCredentialByEmail createSession get_prop].
  rewrite Hopen.
  cbn -[Z.leb Z.add Z.sub number_to_string String.append
        validateCredentials getCredentialByEmail createSession get_prop].
  rewrite Hvalid.
  cbn -[getCredentialByEmail createSession get_prop].
  rewrite Hfind. cbn -[createSession get_prop]. rewrite Hv.
  cbn -[createSession get_prop]. rewrite Hsession.
  destruct v; try discriminate Hv; reflexivity.
Qed.

Lemma counter_ok_event ev s :
  counter_ok (fst s) -> counter_ok (fst (login_event ev s)).
Proof.
  destruct s as [ui w]. unfold counter_ok. cbn [fst].
  destruct ev as [|text]; cbn [login_event fst snd].
  - destruct (onSubmit_cases ui w)
      as (ui' & w' & -> & _ & [(Hl & Hl' & Ha & _) | [(Hl & _ & Ha & Hl')
                                                     | (Hl & _ & Ha & Hl')]]);
      cbn [fst snd]; rewrite Hl, Hl', Ha; unfold MAX_FAILED_ATTEMPTS;
      try (intros; lia).
    intros Hok.
    destruct (Z.leb_spec 5 (failedAttempts ui + 1)); lia.
  - unfold handleChange_email.
    destruct (String.eqb (values_email ui) text); cbn; [auto|].
    intros _. unfold MAX_FAILED_ATTEMPTS. lia.
Qed.

(** X9. The counter of failed attempts and the lockout flag never disagree:
    from the screen as first rendered, after any sequence of submits and
    email edits, on any keychain, the screen is locked out exactly when the
    counter is at the maximum of five, and otherwise the counter is between
    zero and four. *)
Theorem counter_stays_consistent :
  (forall ui, counter_ok (login_mount ui)) /\
  (forall evs s,
      counter_ok (fst s) -> counter_ok (fst (login_events evs s))).
Proof.
  split.
  - intros ui. unfold counter_ok, MAX_FAILED_ATTEMPTS. cbn. lia.
  - intros evs. unfold login_events.
    induction evs as [|ev evs IH]; intros s Hok; [exact Hok|].
    cbn [fold_left]. apply IH, counter_ok_event, Hok.
Qed.

(** X10. Submitting does not unlock: once locked out, any number of further
    submits leaves the screen locked out and the world untouched (no keychain
    call is made). *)
Theorem locked_out_under_submits n s :
  lockout (fst s) = LockedOut ->
  lockout (fst (submits n s)) = LockedOut /\ snd (submits n s) = snd s.
Proof.
  intros Hlocked.
  induction n as [|n [IHl IHw]]; [split; [exact Hlocked | reflexivity]|].
  cbn [submits]. destruct (submits n s) as [ui w]. cbn [fst snd] in *.
  unfold lockout in IHl. destruct (isLockedOut ui) eqn:El; [|discriminate].
  rewrite (onSubmit_locked ui w El). cbn [fst snd].
  split; [|exact IHw]. unfold lockout. cbn. rewrite El. reflexivity.
Qed.

(** X11. A validation that succeeds resets the counter: from any state that
    is not locked out, a submit whose validation returns [true] leaves the
    counter at [Active 0], also when the rest of the login then fails (no
    user data found, or the session is not created). *)
Theorem success_resets_counter ui w :
  isLockedOut ui = false -> validation (ui, w) = Ok true ->
  lockout (fst (snd (onSubmit (ui, w)))) = Active 0.
Proof.
  intros Hopen Hvalid.
  destruct (onSubmit_validated ui w Hopen Hvalid)
    as (ui' & w' & -> & Ha & Hl & _).
  cbn [fst snd]. unfold lockout. rewrite Hl, Ha. reflexivity.
Qed.

Lemma entries_for_unique l c e :
  at_most_one l -> c ∈ l -> toLowerCase (email c) = toLowerCase e ->
  entries_for e l = [c].
Proof.
  intros Hu Hc Hk. specialize (Hu e).
  assert (Hin : c ∈ entries_for e l) by (apply list_elem_of_filter; done).
  destruct (entries_for e l) as [|y [|z t]]; cbn [length] in Hu.
  - inversion Hin.
  - apply list_elem_of_singleton in Hin. congruence.
  - lia.
Qed.

Lemma stored_credentials_logged c w l :
  stored_credentials (logged c w) l <-> stored_credentials w l.
Proof. reflexivity. Qed.

Lemma createSession_rejects e w n :
  rejects_at n (snd (createSession e w)) = rejects_at (S n) w.
Proof.
  rewrite createSession_eq. cbv zeta. unfold rejects_at at 2 3.
  destruct (nth 0 (faults w) false); unfold rejects_at; cbn;
    destruct (faults w); destruct n; reflexivity.
Qed.

Lemma login_run ui w l c :
  stored_credentials w l -> at_most_one l -> c ∈ l ->
  toLowerCase (email c) = toLowerCase (values_email ui) ->
  password c = values_password ui ->
  isLockedOut ui = false ->
  rejects_at 0 w = false -> rejects_at 1 w = false ->
  rejects_at 2 w = false ->
  onSubmit (ui, w) =
  (Ok tt,
   (navigate "Home"
      (setUserData (profile c)
         (setIsLockedOut false (setFailedAttempts 0 (setLoginError "" ui)))),
    snd (createSession (values_email ui)
           (logged (GetGenericPassword CREDENTIALS_SERVICE)
              (logged (GetGenericPassword CREDENTIALS_SERVICE) w))))).
Proof.
  intros Hl Hu Hc Hkey Hpw Hopen Hr0 Hr1 Hr2.
  set (e := values_email ui) in *. set (p := values_password ui) in *.
  set (w1 := logged (GetGenericPassword CREDENTIALS_SERVICE) w).
  set (w2 := logged (GetGenericPassword CREDENTIALS_SERVICE) w1).
  assert (Hvalid : validateCredentials e p w = (Ok true, w1)).
  { rewrite (surjective_pairing (validateCredentials e p w)).
    rewrite (validate_stored w l e p Hl Hr0), validateCredentials_eq.
    cbn [snd]. f_equal. f_equal. apply existsb_matches. exists c. auto. }
  assert (Hfind : getCredentialByEmail e w1 = (Ok (Credential_to_JSON c), w2)).
  { rewrite (surjective_pairing (getCredentialByEmail e w1)).
    rewrite (getCredentialByEmail_stored w1 l e Hl).
    unfold w1 at 1. rewrite rejects_at_logged, Hr1.
    rewrite (entries_for_unique l c e Hu Hc Hkey), getCredentialByEmail_eq.
    reflexivity. }
  destruct (createSession e w2) as [rs w3] eqn:Hsession.
  pose proof Hsession as Hrun. rewrite createSession_eq in Hrun.
  cbv zeta in Hrun.
  assert (Hr : rejects_at 0 w2 = false)
    by (unfold w2, w1; rewrite !rejects_at_logged; exact Hr2).
  rewrite Hr in Hrun. injection Hrun as <- Hw3.
  exact (onSubmit_run ui w w1 _ w2 w3 Hopen Hvalid Hfind eq_refl Hsession).
Qed.

(** X12. A login that succeeds: on a stored list with one entry per email,
    for a screen that is not locked out and whose email (in any letter case)
    and password are those of an entry, and when the three keychain calls of
    the submit resolve, the submit navigates to [Home], puts the profile of
    that entry (its fields but the password) in the store, leaves the counter
    at [Active 0] with no error shown, leaves the credentials slot as it was,
    and has written a session for the lowercased email stamped no earlier
    than the clock at the submit. *)
Theorem login_succeeds ui w l c :
  stored_credentials w l -> at_most_one l -> c ∈ l ->
  toLowerCase (email c) = toLowerCase (values_email ui) ->
  password c = values_password ui ->
  isLockedOut ui = false ->
  rejects_at 0 w = false -> rejects_at 1 w = false ->
  rejects_at 2 w = false ->
  exists ui' w',
    onSubmit (ui, w) = (Ok tt, (ui', w')) /\
    route ui' = "Home" /\ userData ui' = Some (profile c) /\
    lockout ui' = Active 0 /\ loginError ui' = "" /\
    keychain w' !! CREDENTIALS_SERVICE = keychain w !! CREDENTIALS_SERVICE /\
    (rejects_at 3 w = false ->
     exists t,
       fst (getSession w') =
       Ok (Session_to_JSON
             (mkSession (toLowerCase (values_email ui)) t)) /\
       clock w <= t).
Proof.
  intros Hl Hu Hc Hkey Hpw Hopen Hr0 Hr1 Hr2.
  set (w2 := logged (GetGenericPassword CREDENTIALS_SERVICE)
               (logged (GetGenericPassword CREDENTIALS_SERVICE) w)).
  assert (Hr : rejects_at 0 w2 = false)
    by (unfold w2; rewrite !rejects_at_logged; exact Hr2).
  eexists _, _.
  split; [exact (login_run ui w l c Hl Hu Hc Hkey Hpw Hopen Hr0 Hr1 Hr2)|].
  fold w2.
  split; [reflexivity|]. split; [reflexivity|]. split; [reflexivity|].
  split; [reflexivity|]. split.
  - rewrite createSession_other_slots by apply services_distinct.
    reflexivity.
  - intros Hr3.
    destruct (createSession (values_email ui) w2) as [r w3] eqn:Hsession.
    assert (Hw3 : w3 = snd (createSession (values_email ui) w2))
      by (rewrite Hsession; reflexivity).
    assert (Hok : r = Ok true).
    { pose proof Hsession as E. rewrite createSession_eq in E.
      cbv zeta in E. rewrite Hr in E. congruence. }
    subst r. cbn [snd].
    destruct (create_then_current _ w2 w3 Hsession) as (t & Ht & Hclock).
    + rewrite Hw3, createSession_rejects. unfold w2.
      rewrite !rejects_at_logged. exact Hr3.
    + exists t. split; [exact Ht | exact Hclock].
Qed.

End Login.

(** ** The splash screen *)

Section Startup.
Context `{P : Platform} {L : PlatformLaws P}.

Lemma getCredentialByEmail_any_runs x w :
  exists v,
    getCredentialByEmail_any x w =
    (Ok v, logged (GetGenericPassword CREDENTIALS_SERVICE) w).
Proof.
  destruct (call_toLowerCase_cases x) as [[e ->]|Hx].
  - rewrite getCredentialByEmail_any_string, getCredentialByEmail_eq. eauto.
  - rewrite getCredentialByEmail_any_other by exact Hx. eauto.
Qed.

Lemma get_prop_truthy k v : truthy v = true -> get_prop k v = Ok (field k v).
Proof. destruct v; try discriminate; reflexivity. Qed.

Lemma checkAuthenticationStatus_eq ui w :
  checkAuthenticationStatus (ui, w) =
  let session := slot_view SESSION_SERVICE JNull w in
  let w1 := logged (GetGenericPassword SESSION_SERVICE) w in
  let w2 := logged (GetGenericPassword CREDENTIALS_SERVICE) w1 in
  if truthy session then
    match fst (getCredentialByEmail_any (field "email" session) w1) with
    | Ok credential =>
        if truthy credential then
          (Ok tt,
           (navigate "Home"
              (setUserData
                 [("email", field "email" credential);
                  ("firstName", field "firstName" credential);
                  ("lastName", field "lastName" credential);
                  ("phoneNumber", field "phoneNumber" credential)] ui),
            w2))
        else (Ok tt, (navigate "Login" ui, w2))
    | Throw _ => (Ok tt, (navigate "Login" ui, w2))
    end
  else (Ok tt, (navigate "Login" ui, w1)).
Proof.
  cbv zeta.
  unfold checkAuthenticationStatus, try_catch, bind, on_snd, ui_do, modify,
    lift.
  cbn [fst snd]. rewrite getSession_eq. cbn [fst snd].
  destruct (truthy (slot_view SESSION_SERVICE JNull w)) eqn:Hs;
    [|reflexivity].
  rewrite (get_prop_truthy _ _ Hs). cbn [fst snd].
  destruct (getCredentialByEmail_any_runs
              (field "email" (slot_view SESSION_SERVICE JNull w))
              (logged (GetGenericPassword SESSION_SERVICE) w)) as [v Hrun].
  rewrite Hrun. cbn [fst snd].
  destruct (truthy v) eqn:Hv; [|reflexivity].
  rewrite !(get_prop_truthy _ _ Hv). reflexivity.
Qed.

(** X13. The check made at start-up always lands: on every world, whatever
    the slots hold and whichever keychain calls reject, it returns without
    throwing with the route set to [Home] or [Login]; it only reads (one or
    two keychain reads, and the keychain exactly as before, so a session
    whose credential is not found is left in place); and it changes the user
    data only when it routes to [Home]. *)
Theorem splash_lands_on_home_or_login ui w :
  exists ui' w',
    checkAuthenticationStatus (ui, w) = (Ok tt, (ui', w')) /\
    keychain w' = keychain w /\
    (calls w' = calls w ++ [GetGenericPassword SESSION_SERVICE] \/
     calls w' = calls w ++ [GetGenericPassword SESSION_SERVICE;
                            GetGenericPassword CREDENTIALS_SERVICE]) /\
    ((route ui' = "Login" /\ userData ui' = userData ui) \/
     (route ui' = "Home" /\ exists u, userData ui' = Some u)).
Proof.
  rewrite checkAuthenticationStatus_eq. cbv zeta.
  assert (Hcalls : forall a b,
             calls (logged a (logged b w)) = calls w ++ [b; a])
    by (intros a b; cbn; rewrite <- app_assoc; reflexivity).
  destruct (truthy _).
  - destruct (fst _) as [v|err].
    + destruct (truthy v); eexists _, _;
        (split; [reflexivity|]); (split; [reflexivity|]);
        (split; [right; apply Hcalls|]); [right | left]; cbn; eauto.
    + eexists _, _. split; [reflexivity|]. split; [reflexivity|].
      split; [right; apply Hcalls|]. left. cbn. auto.
  - eexists _, _. split; [reflexivity|]. split; [reflexivity|].
    split; [left; reflexivity|]. left. cbn. auto.
Qed.

Lemma checkAuthenticationStatus_no_session ui w :
  slot_view SESSION_SERVICE JNull w = JNull ->
  checkAuthenticationStatus (ui, w) =
  (Ok tt, (navigate "Login" ui, logged (GetGenericPassword SESSION_SERVICE) w)).
Proof.
  intros Hs. rewrite checkAuthenticationStatus_eq. cbv zeta.
  rewrite Hs. reflexivity.
Qed.

(** X14. Without a session the start-up check goes to [Login] after a single
    keychain read: when the session service holds nothing, or the read of it
    rejects, the credentials are not read, the route is [Login] and the user
    data are as before. *)
Theorem splash_without_session ui w :
  keychain w !! SESSION_SERVICE = None \/ rejects_at 0 w = true ->
  checkAuthenticationStatus (ui, w) =
  (Ok tt, (navigate "Login" ui, logged (GetGenericPassword SESSION_SERVICE) w)).
Proof.
  intros Hno. apply checkAuthenticationStatus_no_session.
  unfold slot_view. destruct Hno as [-> | ->]; [|reflexivity].
  destruct (rejects_at 0 w); reflexivity.
Qed.

Lemma splash_home ui w l e t c :
  slot_view SESSION_SERVICE JNull w = Session_to_JSON (mkSession e t) ->
  stored_credentials w l -> head (entries_for e l) = Some c ->
  rejects_at 1 w = false ->
  checkAuthenticationStatus (ui, w) =
  (Ok tt,
   (navigate "Home" (setUserData (profile c) ui),
    logged (GetGenericPassword CREDENTIALS_SERVICE)
      (logged (GetGenericPassword SESSION_SERVICE) w))).
Proof.
  intros Hs Hl Hc Hr1. rewrite checkAuthenticationStatus_eq. cbv zeta.
  rewrite Hs.
  change (truthy (Session_to_JSON (mkSession e t))) with true. cbv iota.
  change (field "email" (Session_to_JSON (mkSession e t)))
    with (Some (JStr e)).
  rewrite getCredentialByEmail_any_string.
  rewrite (getCredentialByEmail_stored
             (logged (GetGenericPassword SESSION_SERVICE) w) l e Hl).
  rewrite rejects_at_logged, Hr1, Hc. reflexivity.
Qed.

Lemma createSession_keeps_credentials e w l :
  stored_credentials w l -> stored_credentials (snd (createSession e w)) l.
Proof.
  unfold stored_credentials.
  rewrite (createSession_other_slots e w CREDENTIALS_SERVICE
             (proj1 services_distinct)).
  auto.
Qed.

Lemma session_then_splash e w l c ui0 :
  stored_credentials w l -> head (entries_for (toLowerCase e) l) = Some c ->
  rejects_at 0 w = false -> rejects_at 1 w = false ->
  rejects_at 2 w = false ->
  exists w',
    checkAuthenticationStatus (ui0, snd (createSession e w)) =
    (Ok tt, (navigate "Home" (setUserData (profile c) ui0), w')).
Proof.
  intros Hl Hc Hr0 Hr1 Hr2.
  destruct (createSession e w) as [r w1] eqn:Hrun.
  assert (Hw1 : w1 = snd (createSession e w)) by (rewrite Hrun; reflexivity).
  assert (Hok : r = Ok true).
  { pose proof Hrun as E. rewrite createSession_eq in E. cbv zeta in E.
    rewrite Hr0 in E. congruence. }
  subst r. cbn [snd].
  destruct (create_then_current e w w1 Hrun) as (t & Ht & _).
  { rewrite Hw1, createSession_rejects. exact Hr1. }
  rewrite getSession_eq in Ht. cbn [fst] in Ht. injection Ht as Ht.
  eexists.
  apply (splash_home ui0 w1 l (toLowerCase e) t c Ht).
  - rewrite Hw1. apply createSession_keeps_credentials, Hl.
  - exact Hc.
  - rewrite Hw1, createSession_rejects. exact Hr2.
Qed.

(** X15. A login survives a restart: after a submit that succeeds (a stored
    list with one entry per email, a matching entry, no lockout, and the
    keychain calls resolving, those of the check included), the start-up
    check run on the world the login left, from any screen state,
    routes to [Home] and puts in the store the profile the login had put
    there. *)
Theorem login_survives_restart ui w l c ui0 :
  stored_credentials w l -> at_most_one l -> c ∈ l ->
  toLowerCase (email c) = toLowerCase (values_email ui) ->
  password c = values_password ui ->
  isLockedOut ui = false ->
  (forall n, (n < 5)%nat -> rejects_at n w = false) ->
  exists w',
    checkAuthenticationStatus (ui0, snd (snd (onSubmit (ui, w)))) =
    (Ok tt, (navigate "Home" (setUserData (profile c) ui0), w')) /\
    userData (fst (snd (onSubmit (ui, w)))) = Some (profile c).
Proof.
  intros Hl Hu Hc Hkey Hpw Hopen Hr.
  rewrite (login_run ui w l c Hl Hu Hc Hkey Hpw Hopen
             (Hr 0%nat ltac:(lia)) (Hr 1%nat ltac:(lia))
             (Hr 2%nat ltac:(lia))).
  cbn [fst snd].
  destruct (session_then_splash (values_email ui)
              (logged (GetGenericPassword CREDENTIALS_SERVICE)
                 (logged (GetGenericPassword CREDENTIALS_SERVICE) w))
              l c ui0) as [w' Hw'].
  - exact Hl.
  - rewrite (entries_for_unique l c (toLowerCase (values_email ui)) Hu Hc);
      [reflexivity|].
    rewrite toLowerCase_idem. exact Hkey.
  - rewrite !rejects_at_logged. apply Hr. lia.
  - rewrite !rejects_at_logged. apply Hr. lia.
  - rewrite !rejects_at_logged. apply Hr. lia.
  - exists w'. split; [exact Hw' | reflexivity].
Qed.

(** X16. After a logout the start-up check goes to [Login]: when the reset
    of the session service resolved during the logout, the check run on the
    world the logout left routes to [Login] and leaves the user data cleared,
    whatever the other slots hold and whatever the later keychain calls
    do. *)
Theorem logout_then_splash ui w :
  rejects_at 0 w = false ->
  exists w',
    checkAuthenticationStatus (snd (handleLogout (ui, w))) =
    (Ok tt, (navigate "Login" (clearUserData ui), w')).
Proof.
  intros Hreset.
  pose proof (logout_keychain ui w) as Hk. rewrite Hreset in Hk.
  rewrite handleLogout_eq in *. cbn [snd] in *.
  eexists.
  rewrite checkAuthenticationStatus_no_session; [reflexivity|].
  unfold slot_view. rewrite Hk.
  destruct (rejects_at 1 w).
  - rewrite lookup_delete_eq.
    match goal with |- (if ?b then _ else _) = _ => destruct b end;
      reflexivity.
  - rewrite lookup_delete_ne
      by (intros E; exact (proj2 (proj2 services_distinct) (eq_sym E))).
    rewrite lookup_delete_eq.
    match goal with |- (if ?b then _ else _) = _ => destruct b end;
      reflexivity.
Qed.

End Startup.

(** ** The sign-up screen *)

Section SignUp.
Context `{P : Platform} {L : PlatformLaws P}.

Lemma signup_eq values st ui w :
  SignUpScreen.onSubmit values (st, (ui, w)) =
  let c := form_credential values in
  let st1 := storage_logged (RemoveItem SIGNUP_FORM_STORAGE_KEY) st in
  match upsert c w with
  | (Ok true, w1) =>
      match createSession (form_email values) w1 with
      | (Ok true, w2) =>
          if storage_rejects_at 0 st then (Ok tt, (st1, (ui, w2)))
          else
            (Ok tt,
             (with_items (delete SIGNUP_FORM_STORAGE_KEY (items st)) st1,
              (navigate "Home" (setUserData (profile c) ui), w2)))
      | (_, w2) => (Ok tt, (st, (ui, w2)))
      end
  | (_, w1) => (Ok tt, (st, (ui, w1)))
  end.
Proof.
  cbv zeta.
  unfold SignUpScreen.onSubmit, try_catch, bind, on_snd, on_fst, ui_do,
    modify, ret.
  cbn [fst snd].
  change (storeCredentialsInKeychain _ _ _ _ _ w)
    with (upsert (form_credential values) w).
  destruct (upsert (form_credential values) w) as [[[]|err] w1];
    cbn [fst snd negb]; try reflexivity.
  destruct (createSession (form_email values) w1) as [[[]|err] w2];
    cbn [fst snd negb]; try reflexivity.
  unfold AsyncStorage_removeItem, storage_call, modify.
  destruct (storage_rejects_at 0 st); reflexivity.
Qed.

Lemma upsert_runs c w : exists b w', upsert c w = (Ok b, w').
Proof.
  unfold upsert. rewrite storeCredentialsInKeychain_eq. cbv zeta.
  destruct (updatedCredentials _ _); [|eauto].
  destruct (rejects_at 1 w); eauto.
Qed.

Lemma createSession_runs e w : exists b w', createSession e w = (Ok b, w').
Proof.
  rewrite createSession_eq. cbv zeta. destruct (rejects_at 0 w); eauto.
Qed.

(** X17. Signing up never throws, and changes the screen only when all of
    it went through: on every input the submit returns, and either the route
    and the user data are as before, or the upsert and the session creation
    both returned [true], the removal of the draft resolved, the route is
    [Home] and the user data are the profile of the form, the email as
    typed. *)
Theorem signup_changes_screen_on_success_only values st ui w :
  exists st' ui' w',
    SignUpScreen.onSubmit values (st, (ui, w)) = (Ok tt, (st', (ui', w'))) /\
    (ui' = ui \/
     (fst (upsert (form_credential values) w) = Ok true /\
      fst (createSession (form_email values)
             (snd (upsert (form_credential values) w))) = Ok true /\
      storage_rejects_at 0 st = false /\
      ui' = navigate "Home" (setUserData (profile (form_credential values)) ui) /\
      items st' !! SIGNUP_FORM_STORAGE_KEY = None)).
Proof.
  rewrite signup_eq. cbv zeta.
  destruct (upsert (form_credential values) w) as [[[]|err] w1];
    cbn [fst snd]; try (eexists _, _, _; split; [reflexivity | left; reflexivity]).
  destruct (createSession (form_email values) w1) as [[[]|err] w2];
    cbn [fst snd]; try (eexists _, _, _; split; [reflexivity | left; reflexivity]).
  destruct (storage_rejects_at 0 st);
    eexists _, _, _; (split; [reflexivity|]); [left; reflexivity|].
  right. repeat split. cbn. apply lookup_delete_eq.
Qed.

Lemma signup_keychain values st ui w l :
  stored_credentials w l ->
  rejects_at 0 w = false -> rejects_at 1 w = false ->
  exists w1,
    upsert (form_credential values) w = (Ok true, w1) /\
    stored_credentials w1 (upsert_list (form_credential values) l) /\
    (forall n, rejects_at n w1 = rejects_at (S (S n)) w) /\
    snd (snd (snd (SignUpScreen.onSubmit values (st, (ui, w))))) =
    snd (createSession (form_email values) w1).
Proof.
  intros Hl Hr0 Hr1.
  destruct (upsert_stored (form_credential values) w l Hl) as (w1 & Hrun & Hl1).
  rewrite Hr0, Hr1 in *. cbn [negb] in Hrun.
  exists w1. split; [exact Hrun|]. split; [exact Hl1|]. split.
  - intros n. revert Hrun. unfold upsert.
    rewrite storeCredentialsInKeychain_eq. cbv zeta.
    destruct (updatedCredentials _ _); [|discriminate].
    rewrite Hr1. intros [= <-]. unfold rejects_at. cbn.
    destruct (faults w) as [|f0 [|f1 fs]]; destruct n; reflexivity.
  - rewrite signup_eq. cbv zeta. rewrite Hrun.
    destruct (createSession (form_email values) w1) as [[[]|err] w2];
      cbn [fst snd]; try reflexivity.
    destruct (storage_rejects_at 0 st); reflexivity.
Qed.

(** X18. A sign-up that succeeds: on a stored list, when the three keychain
    calls of the submit and the removal of the draft resolve, the submit
    leaves the list upserted with the form's credential, no draft under the
    storage key while every other key of the storage is as before, the route
    at [Home] and the profile of the form in the store. *)
Theorem signup_succeeds values st ui w l :
  stored_credentials w l ->
  rejects_at 0 w = false -> rejects_at 1 w = false ->
  rejects_at 2 w = false -> storage_rejects_at 0 st = false ->
  exists st' ui' w',
    SignUpScreen.onSubmit values (st, (ui, w)) = (Ok tt, (st', (ui', w'))) /\
    route ui' = "Home" /\
    userData ui' = Some (profile (form_credential values)) /\
    stored_credentials w' (upsert_list (form_credential values) l) /\
    items st' !! SIGNUP_FORM_STORAGE_KEY = None /\
    (forall k, k <> SIGNUP_FORM_STORAGE_KEY ->
               items st' !! k = items st !! k).
Proof.
  intros Hl Hr0 Hr1 Hr2 Hst.
  destruct (signup_keychain values st ui w l Hl Hr0 Hr1)
    as (w1 & Hrun & Hl1 & Hf & _).
  rewrite signup_eq. cbv zeta. rewrite Hrun.
  pose proof (createSession_keeps_credentials (form_email values) w1 _ Hl1)
    as Hl2.
  pose proof (createSession_eq (form_email values) w1) as Hs.
  cbv zeta in Hs. rewrite (Hf 0%nat), Hr2 in Hs.
  rewrite Hs in *. cbn [snd] in Hl2. rewrite Hst.
  eexists _, _, _. split; [reflexivity|].
  split; [reflexivity|]. split; [reflexivity|]. split; [exact Hl2|].
  split; [apply lookup_delete_eq|].
  intros k Hk. cbn. apply lookup_delete_ne. congruence.
Qed.

(** X19. The account is registered before the rest is known to work: on a
    stored list, when the two keychain calls of the upsert resolve but then
    the write of the session rejects, or the removal of the draft rejects,
    the submit leaves the list upserted with the form's credential although
    the screen (route and user data) is as before and the storage holds what
    it held, draft included. *)
Theorem signup_registers_before_session values st ui w l :
  stored_credentials w l ->
  rejects_at 0 w = false -> rejects_at 1 w = false ->
  rejects_at 2 w = true \/ storage_rejects_at 0 st = true ->
  exists st' w',
    SignUpScreen.onSubmit values (st, (ui, w)) = (Ok tt, (st', (ui, w'))) /\
    stored_credentials w' (upsert_list (form_credential values) l) /\
    items st' = items st.
Proof.
  intros Hl Hr0 Hr1 Hfail.
  destruct (signup_keychain values st ui w l Hl Hr0 Hr1)
    as (w1 & Hrun & Hl1 & Hf & _).
  rewrite signup_eq. cbv zeta. rewrite Hrun.
  pose proof (createSession_keeps_credentials (form_email values) w1 _ Hl1)
    as Hl2.
  destruct (createSession (form_email values) w1) as [r w2] eqn:Hs.
  cbn [snd] in Hl2.
  assert (Hr : r = Ok (negb (rejects_at 2 w))).
  { pose proof Hs as E. rewrite createSession_eq in E. cbv zeta in E.
    rewrite (Hf 0%nat) in E. destruct (rejects_at 2 w); cbn [negb]; congruence. }
  subst r.
  destruct (rejects_at 2 w); cbn [negb].
  - eexists _, _. split; [reflexivity|]. split; [exact Hl2 | reflexivity].
  - destruct Hfail as [|Hst]; [discriminate|]. rewrite Hst.
    eexists _, _. split; [reflexivity|]. split; [exact Hl2 | reflexivity].
Qed.

Lemma entries_for_lower e l : entries_for (toLowerCase e) l = entries_for e l.
Proof.
  induction l as [|x r IH]; [reflexivity|].
  rewrite !entries_for_cons, IH, toLowerCase_idem.
  reflexivity.
Qed.

Lemma upsert_list_head c l :
  head (entries_for (email c) (upsert_list c l)) = Some (normalized c).
Proof.
  induction l as [|x r IH]; cbn [upsert_list].
  - rewrite entries_for_cons, normalized_key.
    destruct (decide _); [reflexivity | done].
  - destruct (String.eqb_spec (toLowerCase (email x)) (toLowerCase (email c)))
      as [Heq|Hne]; rewrite entries_for_cons.
    + rewrite normalized_key. destruct (decide _); [reflexivity | done].
    + destruct (decide _); [contradiction | exact IH].
Qed.

(** X20. A sign-up survives a restart, with the email lowercased: after a
    submit whose keychain calls resolve, the start-up check run on the world
    the sign-up left (its two reads resolving) routes to [Home] and puts in
    the store the profile of the entry as stored, whose email is the
    lowercased one, where the sign-up itself had put the email as typed. *)
Theorem signup_survives_restart values st ui w l ui0 :
  stored_credentials w l ->
  (forall n, (n < 5)%nat -> rejects_at n w = false) ->
  exists w',
    checkAuthenticationStatus
      (ui0, snd (snd (snd (SignUpScreen.onSubmit values (st, (ui, w)))))) =
    (Ok tt,
     (navigate "Home"
        (setUserData (profile (normalized (form_credential values))) ui0),
      w')).
Proof.
  intros Hl Hr.
  destruct (signup_keychain values st ui w l Hl
              (Hr 0%nat ltac:(lia)) (Hr 1%nat ltac:(lia)))
    as (w1 & _ & Hl1 & Hf & ->).
  apply (session_then_splash (form_email values) w1
           (upsert_list (form_credential values) l)).
  - exact Hl1.
  - rewrite entries_for_lower.
    apply (upsert_list_head (form_credential values) l).
  - rewrite Hf. apply Hr. lia.
  - rewrite Hf. apply Hr. lia.
  - rewrite Hf. apply Hr. lia.
Qed.


(** X21. The draft reads back: when a form with a field filled in is saved
    by the effect and the screen is mounted again (both storage calls
    resolving, the JSON text not empty), the form is initialised with the
    six fields as they were, password and confirmation included; and what
    the storage holds under the key is the JSON text of these six fields as
    it is, not enciphered. *)
Theorem draft_round_trip values st cell :
  nonempty (form_email values) || nonempty (form_password values) ||
  nonempty (form_confirmPassword values) ||
  nonempty (form_firstName values) || nonempty (form_lastName values) ||
  nonempty (form_phoneNumber values) = true ->
  storage_rejects_at 0 st = false -> storage_rejects_at 1 st = false ->
  JSON_stringify (SignUpFormValues_to_JSON values) <> "" ->
  let st' := snd (SignUpScreen.values_effect values st) in
  items st' !! SIGNUP_FORM_STORAGE_KEY =
  Some (JSON_stringify (SignUpFormValues_to_JSON values)) /\
  fst (snd (SignUpScreen.loadSavedFormData (cell, st'))) =
  SignUpFormValues_to_JSON values.
Proof.
  intros Hany Hr0 Hr1 Htext. cbv zeta.
  assert (Hsave :
            SignUpScreen.values_effect values st =
            (Ok tt,
             with_items
               (<[SIGNUP_FORM_STORAGE_KEY :=
                    JSON_stringify (SignUpFormValues_to_JSON values)]>
                  (items st))
               (storage_logged
                  (SetItem SIGNUP_FORM_STORAGE_KEY
                     (JSON_stringify (SignUpFormValues_to_JSON values)))
                  st))).
  { unfold SignUpScreen.values_effect. rewrite Hany.
    unfold SignUpScreen.saveFormData, try_catch, AsyncStorage_setItem,
      storage_call, modify, ret.
    rewrite Hr0. reflexivity. }
  rewrite Hsave. cbn [fst snd].
  split; [cbn; apply lookup_insert_eq|].
  unfold SignUpScreen.loadSavedFormData, try_catch, bind, on_snd,
    AsyncStorage_getItem, storage_call, gets, lift, modify, ret.
  cbn [fst snd].
  change (storage_rejects_at 0 (with_items ?m (storage_logged ?c st)))
    with (storage_rejects_at 0 (storage_logged c st)).
  assert (Hnext : forall c,
             storage_rejects_at 0 (storage_logged c st) = false).
  { intros c. revert Hr1. unfold storage_rejects_at, storage_logged. cbn.
    destruct (storage_faults st); auto. }
  rewrite Hnext. cbn [fst snd items with_items storage_logged].
  rewrite lookup_insert_eq.
  assert (Hne : nonempty (JSON_stringify (SignUpFormValues_to_JSON values))
                = true).
  { unfold nonempty.
    destruct (String.eqb_spec
                (JSON_stringify (SignUpFormValues_to_JSON values)) "");
      [contradiction | reflexivity]. }
  rewrite Hne, JSON_round_trip. reflexivity.
Qed.



End SignUp.

(** * The properties at work on the mock platform *)

#[local] Existing Instance Jest.platform.
#[local] Existing Instance JestFacts.laws.

Ltac case_variant_closed :=
  repeat (apply cv_cons; [first [left; reflexivity | right; cbn; lia]|]);
  apply cv_nil.

Lemma upserts_one_entry_per_email_witness :
  let w := upserts ([Scenario.jane] ++ [Scenario.john]) Scenario.flaky in
  let w' := snd (upsert Scenario.john_again w) in
  keychain Scenario.flaky !! CREDENTIALS_SERVICE = None /\
  toLowerCase (email Scenario.john) = toLowerCase (email Scenario.john_again) /\
  upsert Scenario.john_again w = (Ok true, w') /\
  (exists l, stored_credentials w l /\ at_most_one l) /\
  (exists l,
      stored_credentials w' l /\
      entries_for (email Scenario.john) l = [normalized Scenario.john_again] /\
      entries_for (email Scenario.john_again) l =
      [normalized Scenario.john_again]).
Proof.
  cbv zeta.
  assert (H0 : keychain Scenario.flaky !! CREDENTIALS_SERVICE = None)
    by reflexivity.
  assert (H1 : toLowerCase (email Scenario.john) =
               toLowerCase (email Scenario.john_again)) by reflexivity.
  assert (H2 : upsert Scenario.john_again
                 (upserts ([Scenario.jane] ++ [Scenario.john]) Scenario.flaky) =
               (Ok true,
                snd (upsert Scenario.john_again
                       (upserts ([Scenario.jane] ++ [Scenario.john])
                          Scenario.flaky))))
    by (vm_compute; reflexivity).
  split; [exact H0|]. split; [exact H1|]. split; [exact H2|].
  split.
  - destruct (upserts_one_entry_per_email Scenario.flaky
                ([Scenario.jane] ++ [Scenario.john]) H0)
      as [(l & Hl & Hu & _) _].
    exists l. split; assumption.
  - destruct (upserts_one_entry_per_email Scenario.flaky [Scenario.jane] H0)
      as [_ Hlast].
    exact (Hlast Scenario.john Scenario.john_again _ H1 H2).
Defined.

Lemma upsert_then_find_witness :
  let w' := snd (upsert Scenario.john Scenario.read_fails) in
  storeCredentialsInKeychain "Test@Example.com" "password123" "John" "Doe"
    "5551234567" Scenario.read_fails = (Ok true, w') /\
  rejects_at 0 w' = false /\
  fst (getCredentialByEmail "Test@Example.com" w') =
  Ok (Credential_to_JSON
        (mkCredential "test@example.com" "password123" "John" "Doe"
           "5551234567")).
Proof.
  cbv zeta.
  assert (H1 : storeCredentialsInKeychain "Test@Example.com" "password123"
                 "John" "Doe" "5551234567" Scenario.read_fails =
               (Ok true, snd (upsert Scenario.john Scenario.read_fails)))
    by (vm_compute; reflexivity).
  split; [exact H1|]. split; [reflexivity|].
  exact (upsert_then_find _ _ _ _ _ _ _ H1 eq_refl).
Defined.

Lemma validate_iff_entry_witness :
  let w := snd (upsert Scenario.john Scenario.fresh) in
  stored_credentials w [normalized Scenario.john] /\
  rejects_at 0 w = false /\
  at_most_one [normalized Scenario.john] /\
  case_variant "password123" "PASSWORD123" /\
  fst (validateCredentials "test@example.com" "password123" w) = Ok true /\
  fst (validateCredentials "test@example.com" "PASSWORD123" w) = Ok false.
Proof.
  cbv zeta.
  assert (Hst : stored_credentials (snd (upsert Scenario.john Scenario.fresh))
                  [normalized Scenario.john])
    by (unfold stored_credentials; vm_compute; reflexivity).
  assert (Hu : at_most_one [normalized Scenario.john])
    by exact (upsert_list_at_most_one Scenario.john [] at_most_one_nil).
  assert (Hcv : case_variant "password123" "PASSWORD123")
    by case_variant_closed.
  destruct (validate_iff_entry _ _ "test@example.com" "password123" Hst
              eq_refl) as [(b & Hb & Hiff) Hcase].
  assert (Htrue : b = true).
  { apply Hiff. exists (normalized Scenario.john).
    split; [apply list_elem_of_singleton; reflexivity|].
    split; reflexivity. }
  subst b.
  split; [exact Hst|]. split; [reflexivity|]. split; [exact Hu|].
  split; [exact Hcv|]. split; [exact Hb|].
  apply (Hcase Hu Hb "PASSWORD123" Hcv). discriminate.
Defined.

Lemma case_insensitive_email_witness :
  case_variant "Test@Example.com" "tEST@example.COM" /\
  storeCredentialsInKeychain "Test@Example.com" "password123" "John" "Doe"
    "5551234567" Scenario.flaky =
  storeCredentialsInKeychain "tEST@example.COM" "password123" "John" "Doe"
    "5551234567" Scenario.flaky /\
  validateCredentials "Test@Example.com" "password123" Scenario.logged_in =
  validateCredentials "tEST@example.COM" "password123" Scenario.logged_in /\
  getCredentialByEmail "Test@Example.com" Scenario.logged_in =
  getCredentialByEmail "tEST@example.COM" Scenario.logged_in.
Proof.
  assert (Hcv : case_variant "Test@Example.com" "tEST@example.COM")
    by case_variant_closed.
  split; [exact Hcv|].
  pose proof (case_insensitive_email _ _ Hcv "password123" "John" "Doe"
                "5551234567") as H.
  split; [exact (proj1 (H Scenario.flaky))|].
  exact (proj2 (H Scenario.logged_in)).
Defined.

Lemma lockout_after_five_failures_witness :
  let s := (Scenario.login_screen, Scenario.fresh) in
  lockout (fst s) = Active 0 /\
  validation s = Ok false /\
  lockout (fst (submits 4 s)) = Active 4 /\
  lockout (fst (submits 5 s)) = LockedOut /\
  snd (snd (onSubmit (submits 5 s))) = snd (submits 5 s) /\
  lockout (handleChange_email "somebody@example.com" (fst (submits 5 s))) =
  Active 0.
Proof.
  cbv zeta.
  destruct lockout_after_five_failures as (_ & _ & Hfive & Hlocked & Hreset).
  assert (Hfail : forall k, (k < 5)%nat ->
            validation (submits k (Scenario.login_screen, Scenario.fresh)) =
            Ok false).
  { intros k Hk.
    do 5 (destruct k as [|k]; [vm_compute; reflexivity|]). lia. }
  destruct (Hfive (Scenario.login_screen, Scenario.fresh) eq_refl Hfail)
    as [Hbefore Hafter].
  split; [reflexivity|]. split; [exact (Hfail 0%nat ltac:(lia))|].
  split; [exact (Hbefore 4%nat ltac:(lia))|]. split; [exact Hafter|].
  destruct (submits 5 (Scenario.login_screen, Scenario.fresh)) as [ui w] eqn:E.
  cbn [fst snd] in *.
  destruct (Hlocked ui w Hafter) as (ui' & Hsub & Hstill & _).
  split; [rewrite Hsub; reflexivity|].
  apply Hreset.
  assert (Hmail : values_email ui = "nobody@example.com")
    by (change ui with (fst (ui, w)); rewrite <- E; vm_compute; reflexivity).
  rewrite Hmail. discriminate.
Defined.

(** C6 as stated fails: a slot that decrypts to valid JSON of another shape
    is neither a credential list nor a session, and yet the readers return
    the parsed value, not the empty list and not [null]. *)
Lemma tampered_slot_is_returned :
  keychain Scenario.tampered !! CREDENTIALS_SERVICE =
  Some ("credentials", "encrypted_42") /\
  decode "encrypted_42" = Ok (JNum 42) /\
  ~ is_credential_list (JNum 42) /\
  fst (getCredentialsFromKeychain Scenario.tampered) = Ok (JNum 42) /\
  fst (getCredentialsFromKeychain Scenario.tampered) <> Ok (JArr []) /\
  keychain Scenario.tampered !! SESSION_SERVICE =
  Some ("session", "encrypted_{}") /\
  decode "encrypted_{}" = Ok (JObj []) /\
  ~ is_session (JObj []) /\
  fst (getSession Scenario.tampered) = Ok (JObj []) /\
  fst (getSession Scenario.tampered) <> Ok JNull.
Proof.
  repeat split; try (vm_compute; reflexivity).
  - intros [l Hl]. discriminate Hl.
  - vm_compute. discriminate.
  - intros [ss Hs]. discriminate Hs.
  - vm_compute. discriminate.
Qed.

Lemma undecodable_slot_reads_as_absent_witness :
  keychain Scenario.garbled !! CREDENTIALS_SERVICE =
  Some ("credentials", "encrypted_[{") /\
  decode "encrypted_[{" = Throw "SyntaxError" /\
  fst (getCredentialsFromKeychain Scenario.garbled) = Ok (JArr []) /\
  keychain Scenario.garbled !! SESSION_SERVICE = Some ("session", "") /\
  decode "" = Throw "SyntaxError" /\
  fst (getSession Scenario.garbled) = Ok JNull /\
  keychain Scenario.logged_in !! SESSION_SERVICE =
  Some ("session",
        Jest.encrypt
          (Json.stringify
             (Session_to_JSON (mkSession "jane@example.com" 999)))) /\
  rejects_at 0 Scenario.logged_in = false /\
  fst (getSession Scenario.logged_in) =
  Ok (Session_to_JSON (mkSession "jane@example.com" 999)).
Proof.
  destruct (undecodable_slot_reads_as_absent Scenario.logged_in)
    as (_ & _ & _ & _ & _ & Hdecoded).
  destruct (undecodable_slot_reads_as_absent Scenario.garbled)
    as (Hcreds & Hsession & _).
  assert (H1 : keychain Scenario.garbled !! CREDENTIALS_SERVICE =
               Some ("credentials", "encrypted_[{")) by reflexivity.
  assert (H2 : decode "encrypted_[{" = Throw "SyntaxError") by reflexivity.
  assert (H3 : keychain Scenario.garbled !! SESSION_SERVICE =
               Some ("session", "")) by reflexivity.
  assert (H4 : decode "" = Throw "SyntaxError") by reflexivity.
  split; [exact H1|]. split; [exact H2|].
  split; [exact (proj1 (Hcreds _ _ _ H1 H2))|].
  split; [exact H3|]. split; [exact H4|].
  split; [exact (proj1 (Hsession _ _ _ H3 H4))|].
  split; [reflexivity|]. split; [reflexivity|].
  apply (Hdecoded "session" _ _ eq_refl); [|reflexivity].
  vm_compute. reflexivity.
Defined.

(** C7 as stated fails: the keychain read of the upsert rejects, a storage
    failure during the operation, and the upsert returns [true]; the list it
    wrote holds the new entry alone. *)
Lemma upsert_true_despite_read_failure :
  stored_credentials Scenario.read_fails [Scenario.jane] /\
  fst (Keychain_getGenericPassword CREDENTIALS_SERVICE Scenario.read_fails) =
  Throw "Keychain error" /\
  fst (upsert Scenario.john Scenario.read_fails) = Ok true /\
  stored_credentials (snd (upsert Scenario.john Scenario.read_fails))
    [normalized Scenario.john].
Proof.
  repeat split; unfold stored_credentials; vm_compute; reflexivity.
Qed.

Lemma upsert_false_iff_write_or_scan_fails_witness :
  rejects_at 0 Scenario.read_fails = true /\
  rejects_at 1 Scenario.read_fails = false /\
  exists w',
    storeCredentialsInKeychain "Test@Example.com" "password123" "John" "Doe"
      "5551234567" Scenario.read_fails = (Ok true, w').
Proof.
  split; [reflexivity|]. split; [reflexivity|].
  destruct (upsert_false_iff_write_or_scan_fails "Test@Example.com"
              "password123" "John" "Doe" "5551234567" Scenario.read_fails)
    as (b & w' & Hrun & _ & Hread).
  exists w'. rewrite Hrun. rewrite (Hread eq_refl). reflexivity.
Defined.

Lemma session_lifecycle_witness :
  let w1 := snd (createSession "Test@Example.com" Scenario.fresh) in
  let w2 := snd (clearSession w1) in
  let w3 := snd (createSession "Jane@Example.com" w2) in
  createSession "Test@Example.com" Scenario.fresh = (Ok true, w1) /\
  (exists t,
      fst (getSession w1) =
      Ok (Session_to_JSON (mkSession "test@example.com" t)) /\
      clock Scenario.fresh <= t) /\
  clearSession w1 = (Ok true, w2) /\
  fst (getSession w2) = Ok JNull /\
  createSession "Jane@Example.com" w2 = (Ok true, w3) /\
  (exists t,
      fst (getSession w3) =
      Ok (Session_to_JSON (mkSession "jane@example.com" t)) /\
      clock w2 <= t).
Proof.
  cbv zeta. destruct session_lifecycle as [Hcreate Hclear].
  assert (H1 : createSession "Test@Example.com" Scenario.fresh =
               (Ok true, snd (createSession "Test@Example.com" Scenario.fresh)))
    by (vm_compute; reflexivity).
  assert (H2 : clearSession
                 (snd (createSession "Test@Example.com" Scenario.fresh)) =
               (Ok true,
                snd (clearSession
                       (snd (createSession "Test@Example.com" Scenario.fresh)))))
    by (vm_compute; reflexivity).
  assert (H3 : createSession "Jane@Example.com"
                 (snd (clearSession
                         (snd (createSession "Test@Example.com"
                                 Scenario.fresh)))) =
               (Ok true,
                snd (createSession "Jane@Example.com"
                       (snd (clearSession
                               (snd (createSession "Test@Example.com"
                                       Scenario.fresh)))))))
    by (vm_compute; reflexivity).
  split; [exact H1|].
  split; [exact (Hcreate _ _ _ H1 eq_refl)|].
  split; [exact H2|].
  destruct (Hclear _ _ H2) as [Hnone Hagain].
  split; [exact Hnone|]. split; [exact H3|].
  exact (Hagain _ _ H3 eq_refl).
Defined.

Lemma logout_keeps_credentials_witness :
  let w' := snd (snd (handleLogout (Scenario.home_screen, Scenario.logged_in))) in
  stored_credentials Scenario.logged_in [Scenario.jane] /\
  keychain w' !! CREDENTIALS_SERVICE =
  keychain Scenario.logged_in !! CREDENTIALS_SERVICE /\
  fst (getCredentialsFromKeychain (with_faults [] w')) =
  fst (getCredentialsFromKeychain (with_faults [] Scenario.logged_in)) /\
  keychain w' !! SESSION_SERVICE = None.
Proof.
  cbv zeta.
  destruct (logout_keeps_credentials Scenario.home_screen Scenario.logged_in)
    as (Hslot & Hlist & _).
  split; [unfold stored_credentials; vm_compute; reflexivity|].
  split; [exact Hslot|]. split; [exact (Hlist [])|].
  vm_compute. reflexivity.
Defined.

Lemma logout_clears_user_data_witness :
  let w' := snd (snd (handleLogout (Scenario.home_screen, Scenario.logged_in))) in
  rejects_at 1 Scenario.logged_in = false /\
  fst (getUserDataFromKeychain Scenario.logged_in) =
  Ok (UserData_to_JSON
        (mkUserData "jane@example.com" "Jane" "Smith" "0987654321")) /\
  keychain w' !! KEYCHAIN_SERVICE = None /\
  fst (getUserDataFromKeychain w') = Ok JNull /\
  keychain w' !! CREDENTIALS_SERVICE =
  keychain Scenario.logged_in !! CREDENTIALS_SERVICE.
Proof.
  cbv zeta.
  destruct (logout_clears_user_data Scenario.home_screen Scenario.logged_in
              eq_refl) as (_ & Hslot & Hread & Hcreds).
  split; [reflexivity|]. split; [vm_compute; reflexivity|].
  split; [exact Hslot|]. split; [exact Hread|]. exact Hcreds.
Defined.

(** ** The further properties on the mock platform *)

Lemma no_call_rejects (w : World) n :
  faults w = [] -> rejects_at n w = false.
Proof. unfold rejects_at. intros ->. destruct n; reflexivity. Qed.

Lemma user_data_round_trip_witness :
  let w' := snd (storeUserDataInKeychain Walkthrough.jane_data Scenario.fresh) in
  storeUserDataInKeychain Walkthrough.jane_data Scenario.fresh = (Ok true, w') /\
  rejects_at 0 w' = false /\
  fst (getUserDataFromKeychain w') =
  Ok (UserData_to_JSON Walkthrough.jane_data).
Proof.
  cbv zeta.
  assert (H1 : storeUserDataInKeychain Walkthrough.jane_data Scenario.fresh =
               (Ok true,
                snd (storeUserDataInKeychain Walkthrough.jane_data
                       Scenario.fresh)))
    by (vm_compute; reflexivity).
  split; [exact H1|]. split; [reflexivity|].
  exact (user_data_round_trip _ _ _ H1 eq_refl).
Defined.

Lemma readers_leave_keychain_witness :
  keychain (snd (getCredentialsFromKeychain Scenario.tampered)) =
  keychain Scenario.tampered /\
  keychain (snd (getSession Scenario.garbled)) = keychain Scenario.garbled /\
  keychain (snd (validateCredentials "jane@example.com" "securepass456"
                   Scenario.read_fails)) =
  keychain Scenario.read_fails.
Proof.
  split; [exact (proj1 (readers_leave_keychain Scenario.tampered))|].
  split; [exact (proj1 (proj2 (readers_leave_keychain Scenario.garbled)))|].
  destruct (readers_leave_keychain Scenario.read_fails)
    as (_ & _ & _ & Hvalidate & _).
  apply Hvalidate.
Defined.

Lemma writers_touch_own_slot_witness :
  keychain (snd (upsert Scenario.john Scenario.logged_in)) !! SESSION_SERVICE =
  keychain Scenario.logged_in !! SESSION_SERVICE /\
  keychain (snd (createSession "john@example.com" Scenario.logged_in))
    !! CREDENTIALS_SERVICE =
  keychain Scenario.logged_in !! CREDENTIALS_SERVICE.
Proof.
  destruct services_distinct as (Hcs & _ & _).
  split.
  - apply (proj1 (writers_touch_own_slot Scenario.logged_in SESSION_SERVICE)).
    intros E. exact (Hcs (eq_sym E)).
  - apply (proj1 (proj2 (writers_touch_own_slot Scenario.logged_in
                           CREDENTIALS_SERVICE))).
    exact Hcs.
Defined.

Lemma failed_writer_leaves_keychain_witness :
  let w' := snd (createSession "jane@example.com" Scenario.read_fails) in
  createSession "jane@example.com" Scenario.read_fails = (Ok false, w') /\
  keychain w' = keychain Scenario.read_fails.
Proof.
  cbv zeta.
  assert (H1 : createSession "jane@example.com" Scenario.read_fails =
               (Ok false,
                snd (createSession "jane@example.com" Scenario.read_fails)))
    by (vm_compute; reflexivity).
  split; [exact H1|].
  destruct (failed_writer_leaves_keychain Scenario.read_fails
              (snd (createSession "jane@example.com" Scenario.read_fails)))
    as (_ & Hsession & _).
  exact (Hsession _ H1).
Defined.

Lemma stored_logged_in : stored_credentials Scenario.logged_in [Scenario.jane].
Proof. unfold stored_credentials. vm_compute. reflexivity. Qed.

Lemma at_most_one_jane : at_most_one [Scenario.jane].
Proof. exact (upsert_list_at_most_one Scenario.jane [] at_most_one_nil). Qed.

Lemma lookup_first_entry_or_null_witness :
  stored_credentials Scenario.logged_in [Scenario.jane] /\
  rejects_at 0 Scenario.logged_in = false /\
  fst (getCredentialByEmail "JANE@example.com" Scenario.logged_in) =
  Ok (Credential_to_JSON Scenario.jane) /\
  fst (getCredentialByEmail "nobody@example.com" Scenario.logged_in) =
  Ok JNull.
Proof.
  split; [exact stored_logged_in|]. split; [reflexivity|].
  split.
  - exact (lookup_first_entry_or_null Scenario.logged_in [Scenario.jane]
             "JANE@example.com" stored_logged_in eq_refl).
  - exact (lookup_first_entry_or_null Scenario.logged_in [Scenario.jane]
             "nobody@example.com" stored_logged_in eq_refl).
Defined.

Lemma upsert_keeps_other_entries_witness :
  stored_credentials Scenario.logged_in [Scenario.jane] /\
  rejects_at 0 Scenario.logged_in = false /\
  rejects_at 1 Scenario.logged_in = false /\
  exists w',
    upsert Scenario.john Scenario.logged_in = (Ok true, w') /\
    stored_credentials w' [Scenario.jane; normalized Scenario.john].
Proof.
  split; [exact stored_logged_in|]. split; [reflexivity|].
  split; [reflexivity|].
  destruct (upsert_keeps_other_entries Scenario.john Scenario.logged_in
              [Scenario.jane] stored_logged_in eq_refl eq_refl)
    as (w' & l' & Hrun & Hl' & Habsent & _).
  exists w'. split; [exact Hrun|].
  rewrite (Habsent eq_refl) in Hl'. exact Hl'.
Defined.

Lemma upsert_then_validate_witness :
  let w' := snd (upsert Scenario.john Scenario.logged_in) in
  storeCredentialsInKeychain "Test@Example.com" "password123" "John" "Doe"
    "5551234567" Scenario.logged_in = (Ok true, w') /\
  rejects_at 0 w' = false /\
  toLowerCase "TEST@EXAMPLE.COM" = toLowerCase "Test@Example.com" /\
  fst (validateCredentials "TEST@EXAMPLE.COM" "password123" w') = Ok true.
Proof.
  cbv zeta.
  assert (H1 : storeCredentialsInKeychain "Test@Example.com" "password123"
                 "John" "Doe" "5551234567" Scenario.logged_in =
               (Ok true, snd (upsert Scenario.john Scenario.logged_in)))
    by (vm_compute; reflexivity).
  split; [exact H1|]. split; [reflexivity|]. split; [reflexivity|].
  exact (upsert_then_validate _ _ _ _ _ _ _ "TEST@EXAMPLE.COM" H1 eq_refl
           eq_refl).
Defined.

Lemma validate_then_find_witness :
  fst (validateCredentials "JANE@example.com" "securepass456"
         Scenario.logged_in) = Ok true /\
  rejects_at 1 Scenario.logged_in = false /\
  exists v,
    fst (getCredentialByEmail "JANE@example.com"
           (snd (validateCredentials "JANE@example.com" "securepass456"
                   Scenario.logged_in))) = Ok v /\
    truthy v = true /\
    cred_email_lower v = Ok "jane@example.com".
Proof.
  assert (H1 : fst (validateCredentials "JANE@example.com" "securepass456"
                      Scenario.logged_in) = Ok true)
    by (vm_compute; reflexivity).
  split; [exact H1|]. split; [reflexivity|].
  exact (validate_then_find "JANE@example.com" "securepass456"
           Scenario.logged_in H1 eq_refl).
Defined.

Lemma counter_stays_consistent_witness :
  counter_ok (login_mount Scenario.login_screen) /\
  counter_ok
    (fst (login_events
            [Submit; Submit; EmailChanged "jane@example.com"; Submit; Submit;
             Submit; Submit; Submit; Submit]
            (login_mount Scenario.login_screen, Scenario.logged_in))).
Proof.
  destruct counter_stays_consistent as [Hmount Hevents].
  split; [apply Hmount|]. apply Hevents, Hmount.
Defined.

Lemma locked_out_under_submits_witness :
  let s := (Walkthrough.locked_screen, Scenario.logged_in) in
  lockout (fst s) = LockedOut /\
  lockout (fst (submits 3 s)) = LockedOut /\
  snd (submits 3 s) = Scenario.logged_in.
Proof.
  cbv zeta. split; [reflexivity|].
  exact (locked_out_under_submits 3
           (Walkthrough.locked_screen, Scenario.logged_in) eq_refl).
Defined.

Lemma success_resets_counter_witness :
  lockout Walkthrough.jane_third_try = Active 3 /\
  validation (Walkthrough.jane_third_try, Scenario.logged_in) = Ok true /\
  lockout
    (fst (snd (onSubmit (Walkthrough.jane_third_try, Scenario.logged_in)))) =
  Active 0.
Proof.
  assert (H1 : validation (Walkthrough.jane_third_try, Scenario.logged_in) =
               Ok true) by (vm_compute; reflexivity).
  split; [reflexivity|]. split; [exact H1|].
  exact (success_resets_counter Walkthrough.jane_third_try Scenario.logged_in
           eq_refl H1).
Defined.

Lemma login_succeeds_witness :
  stored_credentials Scenario.logged_in [Scenario.jane] /\
  exists ui' w',
    onSubmit (Walkthrough.jane_login, Scenario.logged_in) =
    (Ok tt, (ui', w')) /\
    route ui' = "Home" /\ userData ui' = Some (profile Scenario.jane) /\
    lockout ui' = Active 0 /\
    exists t,
      fst (getSession w') =
      Ok (Session_to_JSON (mkSession "jane@example.com" t)) /\
      1000 <= t.
Proof.
  split; [exact stored_logged_in|].
  destruct (login_succeeds Walkthrough.jane_login Scenario.logged_in
              [Scenario.jane] Scenario.jane stored_logged_in at_most_one_jane
              ltac:(apply list_elem_of_singleton; reflexivity)
              eq_refl eq_refl eq_refl eq_refl eq_refl eq_refl)
    as (ui' & w' & Hrun & Hroute & Hdata & Hlock & _ & _ & Hsession).
  exists ui', w'. split; [exact Hrun|]. split; [exact Hroute|].
  split; [exact Hdata|]. split; [exact Hlock|].
  exact (Hsession eq_refl).
Defined.

Lemma splash_lands_on_home_or_login_witness :
  (exists ui' w',
      checkAuthenticationStatus (Walkthrough.splash, Scenario.tampered) =
      (Ok tt, (ui', w')) /\
      keychain w' = keychain Scenario.tampered) /\
  (exists ui' w',
      checkAuthenticationStatus
        (Walkthrough.splash, Walkthrough.orphan_session) =
      (Ok tt, (ui', w')) /\
      keychain w' !! SESSION_SERVICE =
      keychain Walkthrough.orphan_session !! SESSION_SERVICE).
Proof.
  split.
  - destruct (splash_lands_on_home_or_login Walkthrough.splash
                Scenario.tampered) as (ui' & w' & Hrun & Hk & _).
    exists ui', w'. split; assumption.
  - destruct (splash_lands_on_home_or_login Walkthrough.splash
                Walkthrough.orphan_session) as (ui' & w' & Hrun & Hk & _).
    exists ui', w'. split; [exact Hrun|]. rewrite Hk. reflexivity.
Defined.

Lemma splash_without_session_witness :
  keychain Scenario.fresh !! SESSION_SERVICE = None /\
  checkAuthenticationStatus (Walkthrough.splash, Scenario.fresh) =
  (Ok tt,
   (navigate "Login" Walkthrough.splash,
    logged (GetGenericPassword SESSION_SERVICE) Scenario.fresh)).
Proof.
  split; [reflexivity|].
  apply (splash_without_session Walkthrough.splash Scenario.fresh).
  left. reflexivity.
Defined.

Lemma login_survives_restart_witness :
  exists w',
    checkAuthenticationStatus
      (Walkthrough.splash,
       snd (snd (onSubmit (Walkthrough.jane_login, Scenario.logged_in)))) =
    (Ok tt,
     (navigate "Home" (setUserData (profile Scenario.jane) Walkthrough.splash),
      w')) /\
    userData (fst (snd (onSubmit (Walkthrough.jane_login, Scenario.logged_in)))) =
    Some (profile Scenario.jane).
Proof.
  apply (login_survives_restart Walkthrough.jane_login Scenario.logged_in
           [Scenario.jane] Scenario.jane Walkthrough.splash stored_logged_in
           at_most_one_jane
           ltac:(apply list_elem_of_singleton; reflexivity)
           eq_refl eq_refl eq_refl).
  intros n _. apply no_call_rejects. reflexivity.
Defined.

Lemma logout_then_splash_witness :
  rejects_at 0 Scenario.logged_in = false /\
  exists w',
    checkAuthenticationStatus
      (snd (handleLogout (Scenario.home_screen, Scenario.logged_in))) =
    (Ok tt, (navigate "Login" (clearUserData Scenario.home_screen), w')).
Proof.
  split; [reflexivity|].
  exact (logout_then_splash Scenario.home_screen Scenario.logged_in eq_refl).
Defined.

Lemma signup_changes_screen_on_success_only_witness :
  exists st' ui' w',
    SignUpScreen.onSubmit Walkthrough.jane_form
      (Walkthrough.failing_storage, (Walkthrough.signup_screen, Scenario.fresh)) =
    (Ok tt, (st', (ui', w'))) /\
    ui' = Walkthrough.signup_screen.
Proof.
  destruct (signup_changes_screen_on_success_only Walkthrough.jane_form
              Walkthrough.failing_storage Walkthrough.signup_screen
              Scenario.fresh)
    as (st' & ui' & w' & Hrun & [Hsame | (_ & _ & Hst & _)]).
  - exists st', ui', w'. split; assumption.
  - discriminate Hst.
Defined.

Lemma signup_succeeds_witness :
  stored_credentials Scenario.fresh [] /\
  exists st' ui' w',
    SignUpScreen.onSubmit Walkthrough.jane_form
      (Walkthrough.other_settings, (Walkthrough.signup_screen, Scenario.fresh)) =
    (Ok tt, (st', (ui', w'))) /\
    route ui' = "Home" /\
    userData ui' = Some (profile (form_credential Walkthrough.jane_form)) /\
    stored_credentials w' [Scenario.jane] /\
    items st' !! SIGNUP_FORM_STORAGE_KEY = None /\
    items st' !! "@AccountSetup:theme" = Some "dark".
Proof.
  assert (H0 : stored_credentials Scenario.fresh []) by reflexivity.
  split; [exact H0|].
  destruct (signup_succeeds Walkthrough.jane_form Walkthrough.other_settings
              Walkthrough.signup_screen Scenario.fresh [] H0 eq_refl eq_refl
              eq_refl eq_refl)
    as (st' & ui' & w' & Hrun & Hroute & Hdata & Hl & Hdraft & Hother).
  exists st', ui', w'. split; [exact Hrun|]. split; [exact Hroute|].
  split; [exact Hdata|]. split; [exact Hl|]. split; [exact Hdraft|].
  rewrite Hother by discriminate. reflexivity.
Defined.

Lemma signup_registers_before_session_witness :
  stored_credentials Scenario.flaky [] /\
  rejects_at 2 Scenario.flaky = true /\
  exists st' w',
    SignUpScreen.onSubmit Walkthrough.jane_form
      (Walkthrough.other_settings, (Walkthrough.signup_screen, Scenario.flaky)) =
    (Ok tt, (st', (Walkthrough.signup_screen, w'))) /\
    stored_credentials w' [Scenario.jane] /\
    items st' = items Walkthrough.other_settings.
Proof.
  assert (H0 : stored_credentials Scenario.flaky []) by reflexivity.
  split; [exact H0|]. split; [reflexivity|].
  exact (signup_registers_before_session Walkthrough.jane_form
           Walkthrough.other_settings Walkthrough.signup_screen Scenario.flaky
           [] H0 eq_refl eq_refl (or_introl eq_refl)).
Defined.

Lemma signup_survives_restart_witness :
  userData
    (fst (snd (snd (SignUpScreen.onSubmit Walkthrough.jane_form
                      (Walkthrough.other_settings,
                       (Walkthrough.signup_screen, Scenario.fresh)))))) =
  Some [("email", Some (JStr "Jane@Example.com"));
        ("firstName", Some (JStr "Jane")); ("lastName", Some (JStr "Smith"));
        ("phoneNumber", Some (JStr "0987654321"))] /\
  exists w',
    checkAuthenticationStatus
      (Walkthrough.splash,
       snd (snd (snd (SignUpScreen.onSubmit Walkthrough.jane_form
                        (Walkthrough.other_settings,
                         (Walkthrough.signup_screen, Scenario.fresh)))))) =
    (Ok tt,
     (navigate "Home"
        (setUserData
           [("email", Some (JStr "jane@example.com"));
            ("firstName", Some (JStr "Jane"));
            ("lastName", Some (JStr "Smith"));
            ("phoneNumber", Some (JStr "0987654321"))] Walkthrough.splash),
      w')).
Proof.
  split; [vm_compute; reflexivity|].
  apply (signup_survives_restart Walkthrough.jane_form
           Walkthrough.other_settings Walkthrough.signup_screen Scenario.fresh
           [] Walkthrough.splash).
  - reflexivity.
  - intros n _. apply no_call_rejects. reflexivity.
Defined.

Lemma draft_round_trip_witness :
  let st' :=
    snd (SignUpScreen.values_effect Walkthrough.jane_form
           Walkthrough.other_settings) in
  items st' !! SIGNUP_FORM_STORAGE_KEY =
  Some (Json.stringify (SignUpFormValues_to_JSON Walkthrough.jane_form)) /\
  fst (snd (SignUpScreen.loadSavedFormData (JNull, st'))) =
  SignUpFormValues_to_JSON Walkthrough.jane_form.
Proof.
  assert (Htext : JSON_stringify
                    (SignUpFormValues_to_JSON Walkthrough.jane_form) <> "")
    by (vm_compute; discriminate).
  exact (draft_round_trip Walkthrough.jane_form Walkthrough.other_settings
           JNull eq_refl eq_refl eq_refl Htext).
Defined.

